(** * Screen streamer for the ESP32-S3 AMOLED watch: pixel pipeline and session loop

    A shallow embedding of [run.py].  The first half models the per-frame
    pixel pipeline of [capture_and_process_frame] (raw BGRX bytes -> RGB image
    -> rotation by 90 degrees -> resize -> RGB565 words -> bytes); the second
    half models the coroutine [handler] as an interaction tree over the
    events it performs on its environment (console, screen capture, peer
    socket, event-loop timer). *)

From ITree Require Import ITree ITreeFacts Events.State Events.StateFacts.
From ITree Require Import Props.Leaf.
From Stdlib Require Import Bool Arith ZArith Lia String QArith List.
From Stdlib Require Import Strings.Byte.
Import ListNotations.
Import ITreeNotations.

Local Open Scope Z_scope.

(** ** Configuration (lines 24-27 of [run.py]) *)

Definition DISPLAY_WIDTH : nat := 410.
Definition DISPLAY_HEIGHT : nat := 502.
Definition WEBSOCKET_PORT : Z := 81.
Definition TARGET_FPS : Z := 20.

(** ** Python exceptions and fallible results

    [handler] tells three kinds of exception apart: instances of
    [websockets.exceptions.ConnectionClosed] (itself a subclass of
    [Exception]), every other instance of [Exception], and the exceptions
    that derive from [BaseException] only ([KeyboardInterrupt], [SystemExit],
    [asyncio.CancelledError]), which no [except Exception] clause catches. *)

Inductive exn : Type :=
| ConnectionClosed (code : Z) (reason : string)
| PyException (cls : string) (msg : string)
| PyBaseException (cls : string).

Inductive result (A : Type) : Type :=
| Ok (a : A)
| Raise (e : exn).
Arguments Ok {A} a.
Arguments Raise {A} e.

Definition bind_result {A B : Type} (r : result A) (k : A -> result B) : result B :=
  match r with
  | Ok a => k a
  | Raise e => Raise e
  end.

Declare Scope result_scope.
Delimit Scope result_scope with result.
Notation "'let!' x ':=' r 'in' k" :=
  (bind_result r (fun x => k))
    (at level 10, x name, r at level 100, k at level 200, only parsing) : result_scope.

Definition isinstance_Exception (e : exn) : bool :=
  match e with
  | ConnectionClosed _ _ => true
  | PyException _ _ => true
  | PyBaseException _ => false
  end.

Definition exc_class (e : exn) : string :=
  match e with
  | ConnectionClosed _ _ => "ConnectionClosed"
  | PyException cls _ => cls
  | PyBaseException cls => cls
  end.

(** ** Fixed-width integers of NumPy

    A [uint8] is a [byte]; [astype(np.uint16)] widens it without changing its
    value.  Operations on [uint16] arrays wrap modulo 2^16. *)

Definition astype_uint16 (b : byte) : Z := Z.of_N (Byte.to_N b).

Definition wrap (bits : Z) (z : Z) : Z := z mod 2 ^ bits.

Definition and16 (a b : Z) : Z := wrap 16 (Z.land a b).
Definition or16 (a b : Z) : Z := wrap 16 (Z.lor a b).
Definition shl16 (a n : Z) : Z := wrap 16 (Z.shiftl a n).
Definition shr16 (a n : Z) : Z := wrap 16 (Z.shiftr a n).

(** Line 97: [((r & 0xF8) << 8) | ((g & 0xFC) << 3) | (b >> 3)] on [uint16]
    operands. *)
Definition rgb565 (r g b : Z) : Z :=
  or16 (or16 (shl16 (and16 r 0xF8) 8) (shl16 (and16 g 0xFC) 3)) (shr16 b 3).

(** The same expression had the channels been left as [uint8] (no
    [astype]): every intermediate value wraps modulo 2^8. *)
Definition rgb565_uint8 (r g b : Z) : Z :=
  wrap 8 (Z.lor (wrap 8 (Z.lor (wrap 8 (Z.shiftl (wrap 8 (Z.land r 0xF8)) 8))
                               (wrap 8 (Z.shiftl (wrap 8 (Z.land g 0xFC)) 3))))
                (wrap 8 (Z.shiftr b 3))).

(** ** Images *)

Record Pixel : Type := mkPixel { red : byte; green : byte; blue : byte }.

(** Lines 89-97 on one pixel. *)
Definition pack (p : Pixel) : Z :=
  rgb565 (astype_uint16 (red p)) (astype_uint16 (green p)) (astype_uint16 (blue p)).

(** The unbounded reading of the packing formula, on mathematical integers. *)
Definition rgb565_formula (R G B : Z) : Z :=
  Z.lor (Z.lor (Z.shiftl (Z.land R 0xF8) 8) (Z.shiftl (Z.land G 0xFC) 3)) (Z.shiftr B 3).


Local Close Scope Z_scope.
Local Open Scope nat_scope.

(** A PIL image of mode "RGB": its size and its rows of pixels, top row
    first (the C core stores one array per row). *)
Record Image : Type := mkImage {
  im_width : nat;
  im_height : nat;
  im_rows : list (list Pixel)
}.

Definition black : Pixel := mkPixel x00 x00 x00.

(** [getpixel im x y]: the pixel of column [x] in row [y]. *)
Definition getpixel (im : Image) (x y : nat) : Pixel :=
  nth x (nth y (im_rows im) []) black.

Definition wf_image (im : Image) : Prop :=
  length (im_rows im) = im_height im
  /\ Forall (fun row => length row = im_width im) (im_rows im).

(** What [sct.grab] returns: [size] is (width, height) and [bgra] the raw
    buffer, four bytes a pixel. *)
Record ScreenShot : Type := mkScreenShot {
  size : nat * nat;
  bgra : list byte
}.

(** A frame as the capture source delivers it: non-empty, with exactly four
    bytes for each of its pixels. *)
Definition valid_frame (f : ScreenShot) : Prop :=
  fst (size f) <> 0 /\ snd (size f) <> 0
  /\ length (bgra f) = 4 * fst (size f) * snd (size f).

(** *** Line 75: [Image.frombytes("RGB", size, data, "raw", "BGRX")]

    The raw decoder consumes the buffer one line of [4 * width] bytes at a
    time and stops short when fewer bytes are left; the "BGRX" unpacker
    stores bytes 2, 1, 0 of every group of four as red, green, blue and
    skips byte 3. *)
Fixpoint unpackBGRX (pixels : nat) (inp : list byte) : list Pixel :=
  match pixels with
  | 0 => []
  | S n =>
      match inp with
      | b :: g :: r :: _ :: rest => mkPixel r g b :: unpackBGRX n rest
      | _ => []
      end
  end.

Fixpoint raw_decode (xsize lines : nat) (buf : list byte) : option (list (list Pixel)) :=
  match lines with
  | 0 => Some []
  | S n =>
      if length buf <? 4 * xsize then None
      else option_map (cons (unpackBGRX xsize (firstn (4 * xsize) buf)))
                      (raw_decode xsize n (skipn (4 * xsize) buf))
  end.

Definition frombytes (sz : nat * nat) (data : list byte) : result Image :=
  let '(w, h) := sz in
  if (w =? 0) || (h =? 0) then Ok (mkImage w h (repeat [] h))
  else
    match raw_decode w h data with
    | Some rows => Ok (mkImage w h rows)
    | None => Raise (PyException "ValueError" "not enough image data")
    end.

(** *** Line 79: [img.rotate(90, expand=True)]

    With [expand] set and no centre or translation, PIL answers an angle of
    90 by [transpose(ROTATE_90)]: the output has the input's height as width
    and its width as height, and [out[xsize - 1 - x][y] = in[y][x]]. *)
Definition transpose_ROTATE_90 (im : Image) : Image :=
  let w := im_width im in
  let h := im_height im in
  mkImage h w
    (map (fun yo => map (fun y => getpixel im (w - 1 - yo) y) (seq 0 h)) (seq 0 w)).

Definition rotate_90_expand (im : Image) : Image := transpose_ROTATE_90 im.

(** *** Lines 86-100: NumPy

    [np.array(img, dtype=np.uint8)] has shape (height, width, 3): the rows
    of the image.  [np_arr[:, :, k].astype(np.uint16)] is one channel of it,
    widened; the operators of line 97 work element by element. *)

Definition np_array (im : Image) : list (list Pixel) := im_rows im.

Definition channel (k : Pixel -> byte) (np_arr : list (list Pixel)) : list (list Z) :=
  map (map (fun p => astype_uint16 (k p))) np_arr.

Fixpoint elementwise {A B : Type} (f : A -> A -> A -> B) (a b c : list A) : list B :=
  match a, b, c with
  | x :: a', y :: b', z :: c' => f x y z :: elementwise f a' b' c'
  | _, _, _ => []
  end.

(** [sys.byteorder] of the machine that runs the script: [tobytes] writes
    each word in native order. *)
Inductive byteorder : Type := little | big.

Definition byte_of_Z (z : Z) : byte :=
  match Byte.of_N (Z.to_N (z mod 256)) with
  | Some b => b
  | None => x00
  end.

Definition uint16_bytes (order : byteorder) (word : Z) : list byte :=
  let lo := byte_of_Z (word mod 256) in
  let hi := byte_of_Z (word / 256) in
  match order with
  | little => [lo; hi]
  | big => [hi; lo]
  end.

Definition tobytes (order : byteorder) (arr : list (list Z)) : list byte :=
  flat_map (flat_map (uint16_bytes order)) arr.

Section Pipeline.

(** The interpolation filter of [Image.resize] (bicubic by default for an
    RGB image): the colour it gives the output pixel of column [x] and row
    [y] when resampling a source image to a target size.  The pipeline is
    modelled for every filter. *)
Variable resample : Image -> nat * nat -> nat -> nat -> Pixel.

(** The byte order of the host. *)
Variable native : byteorder.

(** *** Line 82: [img_rotated.resize((DISPLAY_WIDTH, DISPLAY_HEIGHT))]

    An image that already has the requested size is copied; a requested
    size below 1 x 1 is refused; otherwise a new image of the requested size
    is filled by the filter. *)
Definition resize (im : Image) (sz : nat * nat) : result Image :=
  let '(xsize, ysize) := sz in
  if (im_width im =? xsize) && (im_height im =? ysize) then Ok im
  else if (xsize <? 1) || (ysize <? 1) then
    Raise (PyException "ValueError" "height and width must be > 0")
  else
    Ok (mkImage xsize ysize
          (map (fun y => map (fun x => resample im sz x y) (seq 0 xsize)) (seq 0 ysize))).

(** Lines 75-100 of [capture_and_process_frame], everything after the
    grab: the pixel pipeline, for a target geometry. *)
Definition transform_to (target : nat * nat) (sct_img : ScreenShot) : result (list byte) :=
  (let! img := frombytes (size sct_img) (bgra sct_img) in
   let img_rotated := rotate_90_expand img in
   let! img_resized := resize img_rotated target in
   let np_arr := np_array img_resized in
   let r := channel red np_arr in
   let g := channel green np_arr in
   let b := channel blue np_arr in
   let rgb565 := elementwise (elementwise rgb565) r g b in
   Ok (tobytes native rgb565))%result.

Definition transform (sct_img : ScreenShot) : result (list byte) :=
  transform_to (DISPLAY_WIDTH, DISPLAY_HEIGHT) sct_img.

End Pipeline.

(** Nearest-neighbour sampling, the simplest filter [resize] accepts. *)
Definition nearest (im : Image) (sz : nat * nat) (x y : nat) : Pixel :=
  getpixel im (x * im_width im / fst sz) (y * im_height im / snd sz).

(** ** The session: what [handler] asks of its environment *)

(** A monitor of [sct.monitors]: a rectangle of the virtual screen. *)
Record Monitor : Type := mkMonitor {
  mon_left : Z;
  mon_top : Z;
  mon_width : Z;
  mon_height : Z
}.

(** The connection object the server hands to [handler]. *)
Record WebSocket : Type := mkWebSocket { remote_address : string }.

(** The lines [handler] prints (105, 115, 117 and 119). *)
Inductive line : Type :=
| Connected (address : string)
| Disconnected (reason : string) (code : Z)
| Unexpected (e : exn)
| Closed.

Variant sessionE : Type -> Type :=
| accept : sessionE WebSocket                      (* the server takes the next peer *)
| print (l : line) : sessionE unit
| mss_enter : sessionE (result unit)               (* [mss()] and [__enter__] *)
| mss_exit : sessionE unit                         (* [__exit__]: the handle is closed *)
| monitors : sessionE (result (list Monitor))      (* [sct.monitors] *)
| grab (monitor : Monitor) : sessionE (result ScreenShot)
| send (message : list byte) : sessionE (result unit)
| sleep (delay : Q) : sessionE (result unit).

(** Sequencing of computations that may raise: the rest is skipped once an
    exception is in flight. *)
Definition try_bind {E : Type -> Type} {A B : Type}
  (t : itree E (result A)) (k : A -> itree E (result B)) : itree E (result B) :=
  r <- t ;;
  match r with
  | Ok a => k a
  | Raise e => Ret (Raise e)
  end.

Notation "x <-! t ;;; k" := (try_bind t (fun x => k))
  (at level 62, t at next level, right associativity) : itree_scope.

(** [ms[i]] on a Python list. *)
Definition getitem {A : Type} (l : list A) (i : nat) : result A :=
  match nth_error l i with
  | Some a => Ok a
  | None => Raise (PyException "IndexError" "list index out of range")
  end.


(** [1 / TARGET_FPS], the argument of [asyncio.sleep]: a float in Python,
    kept exact here as a rational number of seconds. *)
Definition frame_interval : Q := 1 / inject_Z TARGET_FPS.

Section Session.

Local Open Scope itree_scope.

Variable resample : Image -> nat * nat -> nat -> nat -> Pixel.
Variable native : byteorder.

(** Lines 66-100. *)
Definition capture_and_process_frame : itree sessionE (result (list byte)) :=
  ms <-! ITree.trigger monitors ;;;
  monitor <-! Ret (getitem ms 1) ;;;
  sct_img <-! ITree.trigger (grab monitor) ;;;
  Ret (transform resample native sct_img).

(** Lines 110-113: the body of [while True]. *)
Definition stream_once : itree sessionE (result unit) :=
  frame_data <-! capture_and_process_frame ;;;
  _ <-! ITree.trigger (send frame_data) ;;;
  ITree.trigger (sleep frame_interval).

(** Lines 109-113: the loop has no exit of its own; it ends with the first
    exception one of its calls raises. *)
Definition stream_loop : itree sessionE exn :=
  ITree.iter (fun _ : unit =>
                r <- stream_once ;;
                match r with
                | Ok _ => Ret (inl tt)
                | Raise e => Ret (inr e)
                end) tt.

(** Lines 114-117: the two [except] clauses, tried in order. *)
Definition except_clauses (e : exn) : itree sessionE (result unit) :=
  match e with
  | ConnectionClosed code reason =>
      ITree.trigger (print (Disconnected reason code)) ;; Ret (Ok tt)
  | PyException _ _ =>
      ITree.trigger (print (Unexpected e)) ;; Ret (Ok tt)
  | PyBaseException _ => Ret (Raise e)
  end.

(** Lines 103-119. *)
Definition handler (websocket : WebSocket) : itree sessionE (result unit) :=
  ITree.trigger (print (Connected (remote_address websocket))) ;;
  (sct <-! ITree.trigger mss_enter ;;;
   (e <- stream_loop ;;
    r <- except_clauses e ;;
    ITree.trigger (print Closed) ;;
    ITree.trigger mss_exit ;;
    Ret r)).



End Session.

(** ** The environment of a session *)

(** What the environment answers to the calls of one session, by the number
    of calls of the same kind made before. *)
Record Script : Type := mkScript {
  on_enter : result unit;
  on_monitors : nat -> result (list Monitor);
  on_grab : nat -> Monitor -> result ScreenShot;
  on_send : nat -> list byte -> result unit;
  on_sleep : nat -> Q -> result unit
}.

(** A call [handler] or the server made, with the answer it got. *)
Inductive call : Type :=
| Accept (websocket : WebSocket)
| Print (l : line)
| Enter (r : result unit)
| Exit
| Monitors (r : result (list Monitor))
| Grab (monitor : Monitor) (r : result ScreenShot)
| Send (message : list byte) (r : result unit)
| Sleep (delay : Q) (r : result unit).

Record World : Type := mkWorld {
  pending : list (WebSocket * Script);   (* peers still to connect *)
  script : Script;                       (* of the session being served *)
  n_monitors : nat;                      (* calls made so far in this session *)
  n_grab : nat;
  n_send : nat;
  n_sleep : nat;
  open_handles : nat;                    (* capture handles not yet released *)
  trace : list call                      (* every call so far, oldest first *)
}.

Definition is_ok {A : Type} (r : result A) : bool :=
  match r with
  | Ok _ => true
  | Raise _ => false
  end.

(** The effect of a call on the world: it is appended to the trace, counted,
    and a capture handle is opened by a successful [Enter] and released by
    [Exit]; [Accept] starts the script of the next peer. *)
Definition apply_call (c : call) (w : World) : World :=
  let tr := trace w ++ [c] in
  match c with
  | Accept _ =>
      match pending w with
      | [] => mkWorld [] (script w) 0 0 0 0 (open_handles w) tr
      | (_, s) :: rest => mkWorld rest s 0 0 0 0 (open_handles w) tr
      end
  | Print _ =>
      mkWorld (pending w) (script w) (n_monitors w) (n_grab w) (n_send w) (n_sleep w)
              (open_handles w) tr
  | Enter r =>
      mkWorld (pending w) (script w) (n_monitors w) (n_grab w) (n_send w) (n_sleep w)
              (if is_ok r then S (open_handles w) else open_handles w) tr
  | Exit =>
      mkWorld (pending w) (script w) (n_monitors w) (n_grab w) (n_send w) (n_sleep w)
              (pred (open_handles w)) tr
  | Monitors _ =>
      mkWorld (pending w) (script w) (S (n_monitors w)) (n_grab w) (n_send w) (n_sleep w)
              (open_handles w) tr
  | Grab _ _ =>
      mkWorld (pending w) (script w) (n_monitors w) (S (n_grab w)) (n_send w) (n_sleep w)
              (open_handles w) tr
  | Send _ _ =>
      mkWorld (pending w) (script w) (n_monitors w) (n_grab w) (S (n_send w)) (n_sleep w)
              (open_handles w) tr
  | Sleep _ _ =>
      mkWorld (pending w) (script w) (n_monitors w) (n_grab w) (n_send w) (S (n_sleep w))
              (open_handles w) tr
  end.

Definition after (calls : list call) (w : World) : World :=
  fold_left (fun w c => apply_call c w) calls w.

(** The environment as a handler of the session's events.  With no peer
    left to accept, the server waits for ever. *)
Definition world (T : Type) (ev : sessionE T) : Monads.stateT World (itree void1) T :=
  match ev in sessionE T return Monads.stateT World (itree void1) T with
  | accept => fun w =>
      match pending w with
      | [] => ITree.spin
      | (websocket, _) :: _ => Ret (apply_call (Accept websocket) w, websocket)
      end
  | print l => fun w => Ret (apply_call (Print l) w, tt)
  | mss_enter => fun w =>
      let r := on_enter (script w) in Ret (apply_call (Enter r) w, r)
  | mss_exit => fun w => Ret (apply_call Exit w, tt)
  | monitors => fun w =>
      let r := on_monitors (script w) (n_monitors w) in Ret (apply_call (Monitors r) w, r)
  | grab monitor => fun w =>
      let r := on_grab (script w) (n_grab w) monitor in
      Ret (apply_call (Grab monitor r) w, r)
  | send message => fun w =>
      let r := on_send (script w) (n_send w) message in
      Ret (apply_call (Send message r) w, r)
  | sleep delay => fun w =>
      let r := on_sleep (script w) (n_sleep w) delay in
      Ret (apply_call (Sleep delay r) w, r)
  end.

(** Running a computation of the session in a world. *)
Definition run {R : Type} (t : itree sessionE R) (w : World) : itree void1 (World * R) :=
  interp_state world t w.

(** The messages that reached the peer, and the time spent asleep. *)
Fixpoint delivered (tr : list call) : list (list byte) :=
  match tr with
  | [] => []
  | Send message (Ok _) :: tr' => message :: delivered tr'
  | _ :: tr' => delivered tr'
  end.

Fixpoint attempted_sends (tr : list call) : list (list byte) :=
  match tr with
  | [] => []
  | Send message _ :: tr' => message :: attempted_sends tr'
  | _ :: tr' => attempted_sends tr'
  end.

Fixpoint slept (tr : list call) : Q :=
  match tr with
  | [] => 0
  | Sleep delay (Ok _) :: tr' => delay + slept tr'
  | _ :: tr' => slept tr'
  end.

(** The calls the loop body makes. *)
Definition in_loop (c : call) : bool :=
  match c with
  | Monitors _ | Grab _ _ | Send _ _ | Sleep _ _ => true
  | _ => false
  end.

(** The session is at the start of its iteration [i]: every call of the
    loop body has been made [i] times. *)
Definition at_iteration (w : World) (i : nat) : Prop :=
  n_monitors w = i /\ n_grab w = i /\ n_send w = i /\ n_sleep w = i.

Section Iterations.

Variable resample : Image -> nat * nat -> nat -> nat -> Pixel.
Variable native : byteorder.

(** What iteration [i] of a session gets from [capture_and_process_frame],
    read off the script. *)
Definition captured (s : Script) (i : nat) : result (list byte) :=
  (let! ms := on_monitors s i in
   let! monitor := getitem ms 1 in
   let! sct_img := on_grab s i monitor in
   transform resample native sct_img)%result.

Definition capture_calls (s : Script) (i : nat) : list call :=
  Monitors (on_monitors s i) ::
  match (let! ms := on_monitors s i in getitem ms 1)%result with
  | Ok monitor => [Grab monitor (on_grab s i monitor)]
  | Raise _ => []
  end.

(** The calls of iteration [i], and how it ends. *)
Definition iteration_calls (s : Script) (i : nat) : list call :=
  capture_calls s i ++
  match captured s i with
  | Ok frame_data =>
      Send frame_data (on_send s i frame_data) ::
      match on_send s i frame_data with
      | Ok _ => [Sleep frame_interval (on_sleep s i frame_interval)]
      | Raise _ => []
      end
  | Raise _ => []
  end.

Definition iteration_result (s : Script) (i : nat) : result unit :=
  (let! frame_data := captured s i in
   let! sent := on_send s i frame_data in
   on_sleep s i frame_interval)%result.

(** The frame of iteration [i], when its capture succeeds. *)
Definition frame_of (s : Script) (i : nat) : list byte :=
  match captured s i with
  | Ok frame_data => frame_data
  | Raise _ => []
  end.

(** Iterations [0] to [n - 1] run to their end and iteration [n] raises
    [e]. *)
Definition ends_at (s : Script) (n : nat) (e : exn) : Prop :=
  (forall i, i < n -> iteration_result s i = Ok tt)
  /\ iteration_result s n = Raise e.


(** The calls of a whole session that ends in iteration [n] with [e]. *)
Definition loop_calls (s : Script) (n : nat) : list call :=
  flat_map (iteration_calls s) (seq 0 (S n)).

Definition epilogue_calls (e : exn) : list call :=
  match e with
  | ConnectionClosed code reason => [Print (Disconnected reason code); Print Closed; Exit]
  | PyException _ _ => [Print (Unexpected e); Print Closed; Exit]
  | PyBaseException _ => [Print Closed; Exit]
  end.

Definition session_calls (websocket : WebSocket) (s : Script) (n : nat) (e : exn) : list call :=
  [Print (Connected (remote_address websocket)); Enter (Ok tt)]
  ++ loop_calls s n ++ epilogue_calls e.

(** What [handler] returns when its loop ended with [e]. *)
Definition handler_result (e : exn) : result unit :=
  if isinstance_Exception e then Ok tt else Raise e.

End Iterations.

(** ** Sample pixels, frames and sessions *)

Definition solid_red : Pixel := mkPixel xff x00 x00.
Definition solid_green : Pixel := mkPixel x00 xff x00.
Definition solid_blue : Pixel := mkPixel x00 x00 xff.
Definition solid_white : Pixel := mkPixel xff xff xff.

Definition marker : Pixel := mkPixel xff x00 xff.

Definition marked_image : Image :=
  mkImage 3 2 [[black; black; marker]; [black; black; black]].

(** Two pixels side by side, (R, G, B) = (0x30, 0x20, 0x10) and
    (0x60, 0x50, 0x40), in the byte order of the capture source. *)
Definition sample_frame : ScreenShot :=
  mkScreenShot (2, 1) [x10; x20; x30; xff; x40; x50; x60; xff].

(** The same two pixels with other padding bytes and a byte too many. *)
Definition sample_frame_padded : ScreenShot :=
  mkScreenShot (2, 1) [x10; x20; x30; x00; x40; x50; x60; x7f; xaa].

(** A frame with no pixels at all. *)
Definition empty_frame : ScreenShot := mkScreenShot (0, 0) [].

(** One pixel announced, three bytes delivered. *)
Definition short_frame : ScreenShot :=
  mkScreenShot (1, 1) [x10; x20; x30].

Definition two_monitors : list Monitor :=
  [mkMonitor 0 0 2 1; mkMonitor 0 0 2 1].

Definition peer : WebSocket := mkWebSocket "192.168.4.17".

(** A session in which every call succeeds, for ever. *)
Definition steady : Script :=
  mkScript (Ok tt) (fun _ => Ok two_monitors) (fun _ _ => Ok sample_frame)
           (fun _ _ => Ok tt) (fun _ _ => Ok tt).

(** The capture source is lost from the third grab on. *)
Definition capture_lost : Script :=
  mkScript (Ok tt) (fun _ => Ok two_monitors)
           (fun i _ => if i <? 2 then Ok sample_frame
                       else Raise (PyException "ScreenShotError" "XGetImage() failed"))
           (fun _ _ => Ok tt) (fun _ _ => Ok tt).

(** The peer goes away during the second send. *)
Definition peer_gone : Script :=
  mkScript (Ok tt) (fun _ => Ok two_monitors) (fun _ _ => Ok sample_frame)
           (fun i _ => if i <? 1 then Ok tt else Raise (ConnectionClosed 1006 ""))
           (fun _ _ => Ok tt).

(** The second grab delivers a frame with a byte missing. *)
Definition frame_cut_short : Script :=
  mkScript (Ok tt) (fun _ => Ok two_monitors)
           (fun i _ => if i <? 1 then Ok sample_frame else Ok short_frame)
           (fun _ _ => Ok tt) (fun _ _ => Ok tt).

(** Ctrl+C while the first frame is being grabbed. *)
Definition interrupted : Script :=
  mkScript (Ok tt) (fun _ => Ok two_monitors)
           (fun _ _ => Raise (PyBaseException "KeyboardInterrupt"))
           (fun _ _ => Ok tt) (fun _ _ => Ok tt).

(** The world of a session about to start, with the peers still to come. *)
Definition fresh (s : Script) (peers : list (WebSocket * Script)) : World :=
  mkWorld peers s 0 0 0 0 0 [].

(** ** Start-up: the dependency check (lines 30-52)

    [install_dependencies] imports each module of [packages] in the order
    of the dictionary; a module whose import raises [ImportError] is
    installed with pip, and a failed installation ends the process with
    [sys.exit(1)]. *)

Definition packages : list (string * string) :=
  [("websockets", "websockets"); ("mss", "mss"); ("PIL", "Pillow");
   ("numpy", "numpy")]%string.

(** The Python installation the script runs in. *)
Record Interpreter : Type := mkInterpreter {
  executable : string;                             (* [sys.executable] *)
  import_module : string -> result unit;           (* [importlib.import_module] *)
  check_call : list string -> result unit          (* [subprocess.check_call] *)
}.

Inductive boot_line : Type :=
| Checking
| AlreadyInstalled (package_name : string)
| NotFound (package_name : string)
| Installed (package_name : string)
| InstallFailed (package_name : string)
| ErrorDetail (e : exn)
| Separator.

Inductive boot_call : Type :=
| Say (l : boot_line)
| ImportModule (module_name : string)
| CheckCall (args : list string).

(** How the function is left: it returns, [sys.exit] ends the process, or
    an exception it does not catch goes up. *)
Inductive ending : Type :=
| Returns
| SysExit (status : Z)
| Propagates (e : exn).

(** [ImportError] and the subclasses of it the interpreter raises. *)
Definition isinstance_ImportError (e : exn) : bool :=
  match e with
  | PyException cls _ =>
      existsb (String.eqb cls) ["ImportError"; "ModuleNotFoundError"; "ZipImportError"]%string
  | _ => false
  end.

Definition isinstance_CalledProcessError (e : exn) : bool :=
  match e with
  | PyException cls _ => String.eqb cls "CalledProcessError"
  | _ => false
  end.

(** Line 46: [[sys.executable, "-m", "pip", "install", package_name]]. *)
Definition pip_install (py : Interpreter) (package_name : string) : list string :=
  [executable py; "-m"; "pip"; "install"; package_name]%string.

(** Lines 39-51, the loop over [packages.items()]. *)
Fixpoint check_packages (py : Interpreter) (items : list (string * string))
  : list boot_call * ending :=
  match items with
  | [] => ([], Returns)
  | (module_name, package_name) :: rest =>
      match import_module py module_name with
      | Ok _ =>
          let (calls, how) := check_packages py rest in
          (ImportModule module_name :: Say (AlreadyInstalled package_name) :: calls, how)
      | Raise e =>
          if isinstance_ImportError e then
            match check_call py (pip_install py package_name) with
            | Ok _ =>
                let (calls, how) := check_packages py rest in
                (ImportModule module_name :: Say (NotFound package_name)
                 :: CheckCall (pip_install py package_name)
                 :: Say (Installed package_name) :: calls, how)
            | Raise e' =>
                if isinstance_CalledProcessError e' then
                  ([ImportModule module_name; Say (NotFound package_name);
                    CheckCall (pip_install py package_name);
                    Say (InstallFailed package_name); Say (ErrorDetail e')],
                   SysExit 1)
                else
                  ([ImportModule module_name; Say (NotFound package_name);
                    CheckCall (pip_install py package_name)],
                   Propagates e')
            end
          else ([ImportModule module_name], Propagates e)
      end
  end.

(** Lines 30-52. *)
Definition install_dependencies (py : Interpreter) : list boot_call * ending :=
  let (calls, how) := check_packages py packages in
  (Say Checking :: calls
   ++ match how with
      | Returns => [Say Separator]
      | _ => []
      end,
   how).

(** The modules a run tried to import, in order. *)
Fixpoint imported (calls : list boot_call) : list string :=
  match calls with
  | [] => []
  | ImportModule module_name :: calls' => module_name :: imported calls'
  | _ :: calls' => imported calls'
  end.

(** A package the check gets past: its module imports, or its import
    raises [ImportError] and pip installs it. *)
Definition obtainable (py : Interpreter) (item : string * string) : bool :=
  match import_module py (fst item) with
  | Ok _ => true
  | Raise e =>
      isinstance_ImportError e && is_ok (check_call py (pip_install py (snd item)))
  end.

(** ** Start-up: the address to print (lines 125-134 of [main]) *)

Record Network : Type := mkNetwork {
  gethostname : result string;
  gethostbyname : string -> result string;
  socket_open : result unit;                       (* [socket.socket(AF_INET, SOCK_DGRAM)] *)
  socket_connect : string -> Z -> result unit;
  socket_getsockname : result (string * Z);
  socket_close : result unit
}.

Inductive net_call : Type :=
| GetHostName
| GetHostByName (hostname : string)
| SocketOpen
| SocketConnect (host : string) (port : Z)
| SocketGetSockName
| SocketClose.

(** Lines 127-132, the body of the [try]. *)
Definition route_lookup (net : Network) (hostname : string) : list net_call * result string :=
  match gethostbyname net hostname with
  | Raise e => ([GetHostByName hostname], Raise e)
  | Ok ip_address =>
      match socket_open net with
      | Raise e => ([GetHostByName hostname; SocketOpen], Raise e)
      | Ok _ =>
          match socket_connect net "8.8.8.8" 80 with
          | Raise e =>
              ([GetHostByName hostname; SocketOpen; SocketConnect "8.8.8.8" 80], Raise e)
          | Ok _ =>
              match socket_getsockname net with
              | Raise e =>
                  ([GetHostByName hostname; SocketOpen; SocketConnect "8.8.8.8" 80;
                    SocketGetSockName], Raise e)
              | Ok (ip_address, _) =>
                  match socket_close net with
                  | Raise e =>
                      ([GetHostByName hostname; SocketOpen; SocketConnect "8.8.8.8" 80;
                        SocketGetSockName; SocketClose], Raise e)
                  | Ok _ =>
                      ([GetHostByName hostname; SocketOpen; SocketConnect "8.8.8.8" 80;
                        SocketGetSockName; SocketClose], Ok ip_address)
                  end
              end
          end
      end
  end.

(** Lines 125-134: the host name is asked for outside the [try]; inside
    it, any [Exception] is answered by the loopback address. *)
Definition main_ip_address (net : Network) : list net_call * result string :=
  match gethostname net with
  | Raise e => ([GetHostName], Raise e)
  | Ok hostname =>
      let (calls, r) := route_lookup net hostname in
      (GetHostName :: calls,
       match r with
       | Ok ip_address => Ok ip_address
       | Raise e => if isinstance_Exception e then Ok "127.0.0.1"%string else Raise e
       end)
  end.

(** The first call of the [try] that fails raises [e]. *)
Definition probe_fails (net : Network) (hostname : string) (e : exn) : Prop :=
  gethostbyname net hostname = Raise e
  \/ (is_ok (gethostbyname net hostname) = true
      /\ (socket_open net = Raise e
          \/ (socket_open net = Ok tt
              /\ (socket_connect net "8.8.8.8" 80 = Raise e
                  \/ (socket_connect net "8.8.8.8" 80 = Ok tt
                      /\ (socket_getsockname net = Raise e
                          \/ (is_ok (socket_getsockname net) = true
                              /\ socket_close net = Raise e))))))).

(** An installation without Pillow, which pip can install; one in which
    pip fails for mss; a network without a route; a capture source that
    cannot be opened. *)
Definition without_pillow : Interpreter :=
  mkInterpreter "/usr/bin/python3"
    (fun module_name =>
       if String.eqb module_name "PIL"
       then Raise (PyException "ModuleNotFoundError" "No module named 'PIL'")
       else Ok tt)
    (fun _ => Ok tt).

Definition offline_without_mss : Interpreter :=
  mkInterpreter "/usr/bin/python3"
    (fun module_name =>
       if String.eqb module_name "mss"
       then Raise (PyException "ModuleNotFoundError" "No module named 'mss'")
       else Ok tt)
    (fun _ => Raise (PyException "CalledProcessError" "returned non-zero exit status 1")).

Definition no_route : Network :=
  mkNetwork (Ok "desk"%string) (fun _ => Ok "192.168.4.2"%string) (Ok tt)
            (fun _ _ => Raise (PyException "OSError" "Network is unreachable"))
            (Ok ("192.168.4.2"%string, 50000%Z)) (Ok tt).

Definition no_display : Script :=
  mkScript (Raise (PyException "ScreenShotError" "Unable to open display"))
           (fun _ => Ok two_monitors) (fun _ _ => Ok sample_frame)
           (fun _ _ => Ok tt) (fun _ _ => Ok tt).

Local Open Scope Z_scope.

(** * Properties of the packing *)

Lemma astype_uint16_range (b : byte) : 0 <= astype_uint16 b < 256.
Proof.
  unfold astype_uint16.
  pose proof (Byte.to_N_bounded b) as Hb.
  lia.
Qed.

Lemma wrap_small (bits z : Z) : 0 <= z < 2 ^ bits -> wrap bits z = z.
Proof. intros Hz. unfold wrap. apply Z.mod_small. exact Hz. Qed.

Lemma wrap_lor (bits a b : Z) :
  0 <= bits -> wrap bits a = a -> wrap bits b = b -> wrap bits (Z.lor a b) = Z.lor a b.
Proof.
  unfold wrap. intros Hbits Ha Hb.
  rewrite <- Z.land_ones in * by assumption.
  rewrite Z.land_lor_distr_l. congruence.
Qed.

Lemma wrap_land_mask (bits a m : Z) :
  0 <= bits -> Z.land m (Z.ones bits) = m -> wrap bits (Z.land a m) = Z.land a m.
Proof.
  intros Hbits Hm. unfold wrap.
  rewrite <- Z.land_ones by assumption.
  rewrite <- Z.land_assoc. now rewrite Hm.
Qed.

Lemma and16_mask (a m : Z) : Z.land m (Z.ones 16) = m -> and16 a m = Z.land a m.
Proof. intros Hm. unfold and16. apply wrap_land_mask; [lia | exact Hm]. Qed.

Lemma shl16_mask (a m n : Z) :
  Z.land (Z.shiftl m n) (Z.ones 16) = Z.shiftl m n ->
  shl16 (Z.land a m) n = Z.shiftl (Z.land a m) n.
Proof.
  intros Hm. unfold shl16.
  rewrite Z.shiftl_land. apply wrap_land_mask; [lia | exact Hm].
Qed.

Lemma shr16_uint8 (b : byte) (n : Z) :
  0 <= n -> shr16 (astype_uint16 b) n = Z.shiftr (astype_uint16 b) n.
Proof.
  intros Hn. unfold shr16. apply wrap_small.
  pose proof (astype_uint16_range b) as Hb.
  rewrite Z.shiftr_div_pow2 by assumption.
  assert (0 < 2 ^ n) by (apply Z.pow_pos_nonneg; lia).
  split.
  - apply Z.div_pos; lia.
  - apply Z.le_lt_trans with (m := astype_uint16 b); [| simpl; lia].
    apply Z.div_le_upper_bound; nia.
Qed.

(** Masking an 8-bit value with the complement of its [n] low bits is the
    same as shifting them out and back in. *)
Lemma land_high_mask (a n : Z) :
  0 <= n -> 0 <= a < 256 ->
  Z.land a (Z.land (Z.ones 8) (Z.lnot (Z.ones n))) = Z.shiftl (Z.shiftr a n) n.
Proof.
  intros Hn Ha.
  rewrite <- Z.ldiff_ones_r by assumption.
  rewrite Z.land_assoc, Z.land_ones by lia.
  change (2 ^ 8) with 256. rewrite Z.mod_small by assumption.
  now rewrite Z.ldiff_land.
Qed.

Lemma land_F8 (b : byte) :
  Z.land (astype_uint16 b) 0xF8 = Z.shiftl (Z.shiftr (astype_uint16 b) 3) 3.
Proof. apply (land_high_mask _ 3); [lia | apply astype_uint16_range]. Qed.

Lemma land_FC (b : byte) :
  Z.land (astype_uint16 b) 0xFC = Z.shiftl (Z.shiftr (astype_uint16 b) 2) 2.
Proof. apply (land_high_mask _ 2); [lia | apply astype_uint16_range]. Qed.

(** No operation of line 97 wraps once the channels are 16 bits wide. *)
Lemma pack_no_overflow (p : Pixel) :
  pack p = rgb565_formula (astype_uint16 (red p)) (astype_uint16 (green p))
                          (astype_uint16 (blue p)).
Proof.
  unfold pack, rgb565, rgb565_formula, or16.
  rewrite !and16_mask by reflexivity.
  rewrite !shl16_mask by reflexivity.
  rewrite shr16_uint8 by lia.
  assert (Hr : forall a, wrap 16 (Z.shiftl (Z.land a 0xF8) 8) = Z.shiftl (Z.land a 0xF8) 8).
  { intros a. apply (shl16_mask a 0xF8 8). reflexivity. }
  assert (Hg : forall a, wrap 16 (Z.shiftl (Z.land a 0xFC) 3) = Z.shiftl (Z.land a 0xFC) 3).
  { intros a. apply (shl16_mask a 0xFC 3). reflexivity. }
  assert (Hb : wrap 16 (Z.shiftr (astype_uint16 (blue p)) 3)
               = Z.shiftr (astype_uint16 (blue p)) 3).
  { apply (shr16_uint8 (blue p) 3). lia. }
  rewrite (wrap_lor 16 _ _ ltac:(lia) (Hr _) (Hg _)).
  apply wrap_lor; [lia | | exact Hb].
  apply wrap_lor; [lia | apply Hr | apply Hg].
Qed.

Lemma pack_range (p : Pixel) : 0 <= pack p < 65536.
Proof. unfold pack, rgb565, or16, wrap. apply Z.mod_pos_bound. reflexivity. Qed.

(** The word is built from the 5 high bits of red, the 6 high bits of green
    and the 5 high bits of blue, and from nothing else. *)
Lemma pack_fields (p : Pixel) :
  pack p = Z.lor (Z.lor (Z.shiftl (Z.shiftr (astype_uint16 (red p)) 3) 11)
                        (Z.shiftl (Z.shiftr (astype_uint16 (green p)) 2) 5))
                 (Z.shiftr (astype_uint16 (blue p)) 3).
Proof.
  rewrite pack_no_overflow. unfold rgb565_formula.
  rewrite land_F8, land_FC.
  rewrite !Z.shiftl_shiftl by lia.
  reflexivity.
Qed.

Lemma elementwise_map {A B C : Type} (f : B -> B -> B -> C) (ka kb kc : A -> B)
  (l : list A) :
  elementwise f (map ka l) (map kb l) (map kc l) = map (fun x => f (ka x) (kb x) (kc x)) l.
Proof. induction l as [| x l IH]; cbn; [reflexivity | now rewrite IH]. Qed.

(** Line 97 on the three channels of an array packs each of its pixels. *)
Lemma rgb565_of_channels (np_arr : list (list Pixel)) :
  elementwise (elementwise rgb565)
    (channel red np_arr) (channel green np_arr) (channel blue np_arr)
  = map (map pack) np_arr.
Proof.
  unfold channel. rewrite elementwise_map.
  apply map_ext. intros row. now rewrite elementwise_map.
Qed.

(** C2: every word the pipeline computes is the packing of one pixel, and
    the packed word of every pixel is
    [((R & 0xF8) << 8) | ((G & 0xFC) << 3) | (B >> 3)]: no 16-bit operation
    wraps and the word fits 16 bits.  Solid red, green, blue and white pack
    to 0xF800, 0x07E0, 0x001F and 0xFFFF. *)
Theorem rgb565_packing :
  (forall np_arr : list (list Pixel),
      elementwise (elementwise rgb565)
        (channel red np_arr) (channel green np_arr) (channel blue np_arr)
      = map (map pack) np_arr)
  /\ (forall p : Pixel,
         pack p = rgb565_formula (astype_uint16 (red p)) (astype_uint16 (green p))
                                 (astype_uint16 (blue p))
         /\ 0 <= pack p < 2 ^ 16)
  /\ pack solid_red = 0xF800
  /\ pack solid_green = 0x07E0
  /\ pack solid_blue = 0x001F
  /\ pack solid_white = 0xFFFF.
Proof.
  split; [exact rgb565_of_channels |].
  split; [| repeat split; reflexivity].
  intros p. split; [apply pack_no_overflow | apply pack_range].
Qed.

(** Without the widening of lines 89-91 the red field would be shifted out
    of its 8 bits: solid red would pack to 0. *)
Example rgb565_uint8_loses_red : rgb565_uint8 255 0 0 = 0.
Proof. reflexivity. Qed.

(** C10: two pixels that agree on the top 5 bits of red, the top 6 bits of
    green and the top 5 bits of blue pack to the same word. *)
Theorem pack_low_bits_irrelevant (p q : Pixel) :
  Z.shiftr (astype_uint16 (red p)) 3 = Z.shiftr (astype_uint16 (red q)) 3 ->
  Z.shiftr (astype_uint16 (green p)) 2 = Z.shiftr (astype_uint16 (green q)) 2 ->
  Z.shiftr (astype_uint16 (blue p)) 3 = Z.shiftr (astype_uint16 (blue q)) 3 ->
  pack p = pack q.
Proof.
  intros Hr Hg Hb. rewrite !pack_fields. now rewrite Hr, Hg, Hb.
Qed.

Lemma pack_low_bits_irrelevant_witness :
  pack (mkPixel xff xff xff) = pack (mkPixel xf8 xfc xf8).
Proof.
  apply (pack_low_bits_irrelevant (mkPixel xff xff xff) (mkPixel xf8 xfc xf8));
    reflexivity.
Defined.

Local Close Scope Z_scope.

(** * Properties of the pixel pipeline *)

(** ** Decoding the raw buffer *)

Lemma unpackBGRX_length (n : nat) (inp : list byte) :
  4 * n <= length inp -> length (unpackBGRX n inp) = n.
Proof.
  revert inp. induction n as [| n IH]; intros inp Hlen; [reflexivity |].
  destruct inp as [| b [| g [| r [| x rest]]]]; simpl in Hlen; try lia.
  simpl. f_equal. apply IH. lia.
Qed.

Lemma unpackBGRX_nth (n : nat) (inp : list byte) (x : nat) :
  x < n -> 4 * n <= length inp ->
  nth x (unpackBGRX n inp) black
  = mkPixel (nth (4 * x + 2) inp x00) (nth (4 * x + 1) inp x00) (nth (4 * x) inp x00).
Proof.
  revert inp x. induction n as [| n IH]; intros inp x Hx Hlen; [lia |].
  destruct inp as [| b [| g [| r [| pad rest]]]]; simpl in Hlen; try lia.
  destruct x as [| x].
  - reflexivity.
  - cbn [unpackBGRX nth]. rewrite IH by lia.
    replace (4 * S x + 2) with (S (S (S (S (4 * x + 2))))) by lia.
    replace (4 * S x + 1) with (S (S (S (S (4 * x + 1))))) by lia.
    replace (4 * S x) with (S (S (S (S (4 * x))))) by lia.
    reflexivity.
Qed.

Lemma raw_decode_enough (w h : nat) (buf : list byte) :
  4 * w * h <= length buf -> exists rows, raw_decode w h buf = Some rows.
Proof.
  revert buf. induction h as [| h IH]; intros buf Hlen.
  - now exists [].
  - cbn [raw_decode].
    destruct (Nat.ltb_spec (length buf) (4 * w)) as [Hlt | Hge]; [nia |].
    destruct (IH (skipn (4 * w) buf)) as [rows Hrows].
    { rewrite length_skipn. nia. }
    rewrite Hrows. now eexists.
Qed.

Lemma raw_decode_short (w h : nat) (buf : list byte) :
  length buf < 4 * w * h -> raw_decode w h buf = None.
Proof.
  revert buf. induction h as [| h IH]; intros buf Hlen; [lia |].
  cbn [raw_decode].
  destruct (Nat.ltb_spec (length buf) (4 * w)) as [Hlt | Hge]; [reflexivity |].
  rewrite IH; [reflexivity |].
  rewrite length_skipn. nia.
Qed.

Lemma raw_decode_rows (w h : nat) (buf : list byte) (rows : list (list Pixel)) :
  raw_decode w h buf = Some rows ->
  length rows = h
  /\ Forall (fun row => length row = w) rows
  /\ forall x y, x < w -> y < h ->
       nth x (nth y rows []) black
       = mkPixel (nth (4 * (y * w + x) + 2) buf x00)
                 (nth (4 * (y * w + x) + 1) buf x00)
                 (nth (4 * (y * w + x)) buf x00).
Proof.
  revert buf rows. induction h as [| h IH]; intros buf rows Hdec.
  - injection Hdec as <-. repeat split; [constructor | intros; lia].
  - cbn [raw_decode] in Hdec.
    destruct (Nat.ltb_spec (length buf) (4 * w)) as [Hlt | Hge]; [discriminate |].
    destruct (raw_decode w h (skipn (4 * w) buf)) as [rest |] eqn:Hrest; [| discriminate].
    injection Hdec as <-.
    destruct (IH _ _ Hrest) as (Hlen & Hall & Hpix).
    assert (Hfirst : 4 * w <= length (firstn (4 * w) buf)).
    { rewrite length_firstn. lia. }
    repeat split.
    + simpl. now rewrite Hlen.
    + constructor; [| exact Hall]. apply unpackBGRX_length. exact Hfirst.
    + intros x y Hx Hy. destruct y as [| y].
      * cbn [nth]. rewrite unpackBGRX_nth by assumption.
        rewrite !nth_firstn.
        replace (4 * (0 * w + x)) with (4 * x) by lia.
        repeat match goal with
               | |- context [?a <? ?b] => destruct (Nat.ltb_spec a b); [| lia]
               end.
        reflexivity.
      * cbn [nth]. rewrite Hpix by lia.
        rewrite !nth_skipn.
        f_equal; f_equal; lia.
Qed.

Lemma frombytes_valid (f : ScreenShot) :
  valid_frame f ->
  exists img,
    frombytes (size f) (bgra f) = Ok img
    /\ im_width img = fst (size f)
    /\ im_height img = snd (size f)
    /\ wf_image img
    /\ forall x y, x < fst (size f) -> y < snd (size f) ->
         getpixel img x y
         = mkPixel (nth (4 * (y * fst (size f) + x) + 2) (bgra f) x00)
                   (nth (4 * (y * fst (size f) + x) + 1) (bgra f) x00)
                   (nth (4 * (y * fst (size f) + x)) (bgra f) x00).
Proof.
  destruct f as [[w h] data]. unfold valid_frame. cbn [size bgra fst snd].
  intros (Hw & Hh & Hlen). unfold frombytes.
  destruct (Nat.eqb_spec w 0) as [-> | _]; [contradiction |].
  destruct (Nat.eqb_spec h 0) as [-> | _]; [contradiction |].
  cbn [orb].
  destruct (raw_decode_enough w h data) as [rows Hrows]; [lia |].
  rewrite Hrows. exists (mkImage w h rows).
  destruct (raw_decode_rows _ _ _ _ Hrows) as (Hl & Hall & Hpix).
  repeat split; assumption.
Qed.

(** C4: decoding a valid frame succeeds, and the pixel of column [x] and
    row [y] takes its red from byte 2, its green from byte 1 and its blue
    from byte 0 of the frame's group of four bytes for that pixel; byte 3 is
    read by nothing, and the red operand of the packing formula is the
    capture's red byte. *)
Theorem frombytes_BGRX_to_RGB (f : ScreenShot) :
  valid_frame f ->
  exists img,
    frombytes (size f) (bgra f) = Ok img
    /\ forall x y, x < fst (size f) -> y < snd (size f) ->
         let i := 4 * (y * fst (size f) + x) in
         let B := nth i (bgra f) x00 in
         let G := nth (i + 1) (bgra f) x00 in
         let R := nth (i + 2) (bgra f) x00 in
         getpixel img x y = mkPixel R G B
         /\ pack (getpixel img x y)
            = rgb565_formula (astype_uint16 R) (astype_uint16 G) (astype_uint16 B).
Proof.
  intros Hf. destruct (frombytes_valid f Hf) as (img & Hdec & _ & _ & _ & Hpix).
  exists img. split; [exact Hdec |].
  intros x y Hx Hy. cbv zeta.
  rewrite (Hpix x y Hx Hy). split; [reflexivity |].
  apply pack_no_overflow.
Qed.

Lemma sample_frame_valid : valid_frame sample_frame.
Proof. unfold valid_frame. cbn. repeat split; discriminate. Defined.

Lemma frombytes_BGRX_to_RGB_witness :
  exists img,
    frombytes (size sample_frame) (bgra sample_frame) = Ok img
    /\ forall x y, x < fst (size sample_frame) -> y < snd (size sample_frame) ->
         let i := 4 * (y * fst (size sample_frame) + x) in
         let B := nth i (bgra sample_frame) x00 in
         let G := nth (i + 1) (bgra sample_frame) x00 in
         let R := nth (i + 2) (bgra sample_frame) x00 in
         getpixel img x y = mkPixel R G B
         /\ pack (getpixel img x y)
            = rgb565_formula (astype_uint16 R) (astype_uint16 G) (astype_uint16 B).
Proof. apply (frombytes_BGRX_to_RGB sample_frame). exact sample_frame_valid. Defined.

(** ** Rotation *)

Lemma nth_map_seq {A : Type} (f : nat -> A) (n i : nat) (d : A) :
  i < n -> nth i (map f (seq 0 n)) d = f i.
Proof.
  intros Hi.
  rewrite (nth_indep _ d (f 0)) by (rewrite length_map, length_seq; exact Hi).
  rewrite map_nth. now rewrite seq_nth.
Qed.

Lemma grid_wf {A : Type} (f : nat -> nat -> A) (w h : nat) :
  length (map (fun y => map (fun x => f x y) (seq 0 w)) (seq 0 h)) = h
  /\ Forall (fun row => length row = w)
            (map (fun y => map (fun x => f x y) (seq 0 w)) (seq 0 h)).
Proof.
  split.
  - now rewrite length_map, length_seq.
  - apply Forall_forall. intros row Hrow.
    apply in_map_iff in Hrow. destruct Hrow as (y & <- & _).
    now rewrite length_map, length_seq.
Qed.

Lemma transpose_ROTATE_90_wf (im : Image) : wf_image (transpose_ROTATE_90 im).
Proof.
  unfold wf_image, transpose_ROTATE_90. cbn [im_rows im_width im_height].
  apply (grid_wf (fun y yo => getpixel im (im_width im - 1 - yo) y)).
Qed.

Lemma transpose_ROTATE_90_getpixel (im : Image) (xo yo : nat) :
  xo < im_height im -> yo < im_width im ->
  getpixel (transpose_ROTATE_90 im) xo yo = getpixel im (im_width im - 1 - yo) xo.
Proof.
  intros Hx Hy. unfold getpixel at 1, transpose_ROTATE_90. cbn [im_rows].
  rewrite (nth_indep _ [] (map (fun y => getpixel im (im_width im - 1 - 0) y)
                                (seq 0 (im_height im))))
    by (rewrite length_map, length_seq; exact Hy).
  rewrite (map_nth (fun yo => map (fun y => getpixel im (im_width im - 1 - yo) y)
                                  (seq 0 (im_height im)))).
  rewrite seq_nth by exact Hy.
  now rewrite nth_map_seq.
Qed.

(** C3: rotating a W x H image gives an H x W image with a full grid of
    pixels; the input pixel of column [x] and row [y] is found at column
    [y] and row [W - 1 - x], and every output pixel is such an input pixel:
    nothing is cropped and nothing is added. *)
Theorem rotate_90_expand_swaps_and_keeps (im : Image) :
  im_width (rotate_90_expand im) = im_height im
  /\ im_height (rotate_90_expand im) = im_width im
  /\ wf_image (rotate_90_expand im)
  /\ (forall x y, x < im_width im -> y < im_height im ->
        getpixel (rotate_90_expand im) y (im_width im - 1 - x) = getpixel im x y)
  /\ (forall xo yo, xo < im_height im -> yo < im_width im ->
        exists x y, x < im_width im /\ y < im_height im
                    /\ xo = y /\ yo = im_width im - 1 - x
                    /\ getpixel (rotate_90_expand im) xo yo = getpixel im x y).
Proof.
  unfold rotate_90_expand. repeat split.
  - apply transpose_ROTATE_90_wf.
  - apply transpose_ROTATE_90_wf.
  - intros x y Hx Hy.
    rewrite transpose_ROTATE_90_getpixel by lia.
    f_equal. lia.
  - intros xo yo Hx Hy.
    exists (im_width im - 1 - yo), xo.
    repeat split; try lia.
    now apply transpose_ROTATE_90_getpixel.
Qed.

(** A marker in the top right corner of a 3 x 2 image is, after rotation,
    in the top left corner of a 2 x 3 image. *)
Example rotate_marker :
  rotate_90_expand marked_image
  = mkImage 2 3 [[marker; black]; [black; black]; [black; black]].
Proof. reflexivity. Qed.

(** ** Resize, packing and serialisation *)

Section PipelineFacts.

Variable resample : Image -> nat * nat -> nat -> nat -> Pixel.
Variable native : byteorder.

Lemma resize_size (im : Image) (tw th : nat) :
  wf_image im -> 0 < tw -> 0 < th ->
  exists out,
    resize resample im (tw, th) = Ok out
    /\ im_width out = tw /\ im_height out = th /\ wf_image out.
Proof.
  intros Hwf Htw Hth. unfold resize.
  destruct ((im_width im =? tw) && (im_height im =? th)) eqn:Hsame.
  - apply andb_true_iff in Hsame. destruct Hsame as [Ew Eh].
    apply Nat.eqb_eq in Ew, Eh.
    exists im. auto.
  - destruct (Nat.ltb_spec tw 1) as [? | _]; [lia |].
    destruct (Nat.ltb_spec th 1) as [? | _]; [lia |].
    cbn [orb]. eexists. split; [reflexivity |].
    split; [reflexivity |]. split; [reflexivity |].
    apply (grid_wf (fun x y => resample im (tw, th) x y)).
Qed.

Lemma uint16_bytes_length (order : byteorder) (word : Z) :
  length (uint16_bytes order word) = 2.
Proof. now destruct order. Qed.

Lemma flat_map_length_const {A B : Type} (f : A -> list B) (n : nat) (l : list A) :
  (forall a, In a l -> length (f a) = n) -> length (flat_map f l) = n * length l.
Proof.
  induction l as [| a l IH]; intros Hf; cbn [flat_map length]; [lia |].
  rewrite length_app, Hf by now left.
  rewrite IH by (intros b Hb; apply Hf; now right).
  lia.
Qed.

Lemma tobytes_length (order : byteorder) (arr : list (list Z)) (w : nat) :
  Forall (fun row => length row = w) arr ->
  length (tobytes order arr) = 2 * w * length arr.
Proof.
  intros Hrows. unfold tobytes.
  rewrite (flat_map_length_const _ (2 * w)); [lia |].
  intros row Hrow.
  rewrite (flat_map_length_const _ 2) by (intros; apply uint16_bytes_length).
  rewrite Forall_forall in Hrows. rewrite (Hrows row Hrow). lia.
Qed.

Lemma transform_to_length (tw th : nat) (f : ScreenShot) :
  valid_frame f -> 0 < tw -> 0 < th ->
  exists out,
    transform_to resample native (tw, th) f = Ok out
    /\ length out = 2 * tw * th.
Proof.
  intros Hf Htw Hth. unfold transform_to.
  destruct (frombytes_valid f Hf) as (img & -> & _ & _ & _ & _).
  cbn [bind_result].
  destruct (resize_size (rotate_90_expand img) tw th) as (out & -> & Hw & Hh & Hrows & Hall);
    [apply transpose_ROTATE_90_wf | assumption | assumption |].
  cbn [bind_result]. eexists. split; [reflexivity |].
  rewrite rgb565_of_channels, (tobytes_length _ _ tw).
  - rewrite length_map. unfold np_array. rewrite Hrows, Hh. reflexivity.
  - unfold np_array. apply Forall_map.
    rewrite Hw in Hall.
    eapply Forall_impl; [| exact Hall].
    cbv beta. intros row Hrow. now rewrite length_map.
Qed.

Lemma resize_ok_size (im out : Image) (tw th : nat) :
  wf_image im -> resize resample im (tw, th) = Ok out ->
  im_width out = tw /\ im_height out = th /\ wf_image out.
Proof.
  intros Hwf. unfold resize.
  destruct ((im_width im =? tw) && (im_height im =? th)) eqn:Hsame.
  - apply andb_true_iff in Hsame. destruct Hsame as [Ew Eh].
    apply Nat.eqb_eq in Ew, Eh. intros [= <-]. auto.
  - destruct ((tw <? 1) || (th <? 1)); [discriminate |].
    intros [= <-]. split; [reflexivity |]. split; [reflexivity |].
    apply (grid_wf (fun x y => resample im (tw, th) x y)).
Qed.

(** Whatever the frame, a buffer the pipeline returns is a whole one. *)
Lemma transform_to_ok_length (tw th : nat) (f : ScreenShot) (out : list byte) :
  transform_to resample native (tw, th) f = Ok out -> length out = 2 * tw * th.
Proof.
  unfold transform_to.
  destruct (frombytes (size f) (bgra f)) as [img |]; cbn [bind_result]; [| discriminate].
  destruct (resize resample (rotate_90_expand img) (tw, th)) as [res |] eqn:Hres;
    cbn [bind_result]; [| discriminate].
  destruct (resize_ok_size _ _ _ _ (transpose_ROTATE_90_wf img) Hres)
    as (Hw & Hh & Hrows & Hall).
  intros [= <-].
  rewrite rgb565_of_channels, (tobytes_length _ _ tw).
  - rewrite length_map. unfold np_array. rewrite Hrows, Hh. reflexivity.
  - unfold np_array. apply Forall_map.
    rewrite Hw in Hall.
    eapply Forall_impl; [| exact Hall].
    cbv beta. intros row Hrow. now rewrite length_map.
Qed.

Lemma transform_ok_length (f : ScreenShot) (out : list byte) :
  transform resample native f = Ok out -> Z.of_nat (length out) = 411640%Z.
Proof.
  intros Hout. apply transform_to_ok_length in Hout.
  rewrite Hout, !Nat2Z.inj_mul. reflexivity.
Qed.

(** A buffer too short for the announced size is refused by the decoder. *)
Lemma transform_short_buffer (f : ScreenShot) :
  fst (size f) <> 0 -> snd (size f) <> 0 ->
  length (bgra f) < 4 * fst (size f) * snd (size f) ->
  transform resample native f = Raise (PyException "ValueError" "not enough image data").
Proof.
  destruct f as [[w h] data]. cbn [size bgra fst snd]. intros Hw Hh Hlen.
  unfold transform, transform_to, frombytes. cbn [size bgra].
  destruct (Nat.eqb_spec w 0) as [-> | _]; [contradiction |].
  destruct (Nat.eqb_spec h 0) as [-> | _]; [contradiction |].
  cbn [orb]. now rewrite raw_decode_short.
Qed.

Lemma transform_valid (f : ScreenShot) :
  valid_frame f ->
  exists out,
    transform resample native f = Ok out
    /\ length out = 2 * DISPLAY_WIDTH * DISPLAY_HEIGHT.
Proof.
  intros Hf. unfold transform.
  apply transform_to_length; [exact Hf | unfold DISPLAY_WIDTH; lia | unfold DISPLAY_HEIGHT; lia].
Qed.

End PipelineFacts.

(** The sample frame through the whole pipeline, for small targets.  Its
    two pixels pack to 0x3102 and 0x6288; the rotation puts the right one on
    top. *)
Example transform_to_same_size :
  transform_to nearest little (1, 2) sample_frame = Ok [x88; x62; x02; x31].
Proof. reflexivity. Qed.

Example transform_to_big_endian :
  transform_to nearest big (1, 2) sample_frame = Ok [x62; x88; x31; x02].
Proof. reflexivity. Qed.

Example transform_to_wider :
  transform_to nearest little (2, 2) sample_frame
  = Ok [x88; x62; x88; x62; x02; x31; x02; x31].
Proof. reflexivity. Qed.

(** C1: on every valid frame, whatever its dimensions, the transform
    returns a buffer of exactly [2 * DISPLAY_WIDTH * DISPLAY_HEIGHT] bytes,
    that is 411640 bytes. *)
Theorem transform_output_length
  (resample : Image -> nat * nat -> nat -> nat -> Pixel) (native : byteorder)
  (f : ScreenShot) :
  valid_frame f ->
  exists out,
    transform resample native f = Ok out
    /\ length out = 2 * DISPLAY_WIDTH * DISPLAY_HEIGHT
    /\ Z.of_nat (length out) = 411640%Z.
Proof.
  intros Hf.
  destruct (transform_valid resample native f Hf) as (out & Hout & Hlen).
  exists out. repeat split; [exact Hout | exact Hlen |].
  rewrite Hlen, !Nat2Z.inj_mul. reflexivity.
Qed.

Lemma transform_output_length_witness :
  exists out,
    transform nearest little sample_frame = Ok out
    /\ length out = 2 * DISPLAY_WIDTH * DISPLAY_HEIGHT
    /\ Z.of_nat (length out) = 411640%Z.
Proof. apply (transform_output_length nearest little sample_frame). exact sample_frame_valid. Defined.

(** * Properties of the session *)

Section SessionFacts.

Local Open Scope itree_scope.

Variable resample : Image -> nat * nat -> nat -> nat -> Pixel.
Variable native : byteorder.

(** ** Running computations in a world *)

Lemma run_ret {R : Type} (r : R) (w : World) : run (Ret r) w ≈ Ret (w, r).
Proof. unfold run. now rewrite interp_state_ret. Qed.

Lemma run_bind_ret {R S : Type} (t : itree sessionE R) (k : R -> itree sessionE S)
  (w w' : World) (r : R) :
  run t w ≈ Ret (w', r) -> run (ITree.bind t k) w ≈ run (k r) w'.
Proof.
  intros Ht. unfold run in *.
  rewrite interp_state_bind, Ht, bind_ret_l. reflexivity.
Qed.

Lemma run_try_bind {A B : Type} (t : itree sessionE (result A))
  (k : A -> itree sessionE (result B)) (w w' : World) (r : result A) :
  run t w ≈ Ret (w', r) ->
  run (try_bind t k) w
  ≈ match r with
    | Ok a => run (k a) w'
    | Raise e => Ret (w', Raise e)
    end.
Proof.
  intros Ht. unfold try_bind.
  rewrite (run_bind_ret _ _ _ _ _ Ht).
  destruct r; [reflexivity | apply run_ret].
Qed.

Lemma run_print (l : line) (w : World) :
  run (ITree.trigger (print l)) w ≈ Ret (apply_call (Print l) w, tt).
Proof. unfold run. now rewrite interp_state_trigger. Qed.

Lemma run_mss_enter (w : World) :
  run (ITree.trigger mss_enter) w
  ≈ Ret (apply_call (Enter (on_enter (script w))) w, on_enter (script w)).
Proof. unfold run. now rewrite interp_state_trigger. Qed.

Lemma run_mss_exit (w : World) :
  run (ITree.trigger mss_exit) w ≈ Ret (apply_call Exit w, tt).
Proof. unfold run. now rewrite interp_state_trigger. Qed.

Lemma run_monitors (w : World) :
  run (ITree.trigger monitors) w
  ≈ Ret (apply_call (Monitors (on_monitors (script w) (n_monitors w))) w,
         on_monitors (script w) (n_monitors w)).
Proof. unfold run. now rewrite interp_state_trigger. Qed.

Lemma run_grab (monitor : Monitor) (w : World) :
  run (ITree.trigger (grab monitor)) w
  ≈ Ret (apply_call (Grab monitor (on_grab (script w) (n_grab w) monitor)) w,
         on_grab (script w) (n_grab w) monitor).
Proof. unfold run. now rewrite interp_state_trigger. Qed.

Lemma run_send (message : list byte) (w : World) :
  run (ITree.trigger (send message)) w
  ≈ Ret (apply_call (Send message (on_send (script w) (n_send w) message)) w,
         on_send (script w) (n_send w) message).
Proof. unfold run. now rewrite interp_state_trigger. Qed.

Lemma run_sleep (delay : Q) (w : World) :
  run (ITree.trigger (sleep delay)) w
  ≈ Ret (apply_call (Sleep delay (on_sleep (script w) (n_sleep w) delay)) w,
         on_sleep (script w) (n_sleep w) delay).
Proof. unfold run. now rewrite interp_state_trigger. Qed.

Lemma after_app (l1 l2 : list call) (w : World) :
  after (l1 ++ l2) w = after l2 (after l1 w).
Proof. unfold after. apply fold_left_app. Qed.

(** ** One iteration of the loop *)

Lemma capture_runs (w : World) (i : nat) :
  n_monitors w = i -> n_grab w = i ->
  run (capture_and_process_frame resample native) w
  ≈ Ret (after (capture_calls (script w) i) w, captured resample native (script w) i).
Proof.
  intros Hm Hg. unfold capture_and_process_frame, capture_calls, captured.
  rewrite (run_try_bind _ _ _ _ _ (run_monitors w)). rewrite Hm.
  destruct (on_monitors (script w) i) as [ms | e]; cbn [bind_result after fold_left];
    [| reflexivity].
  rewrite (run_try_bind _ _ _ _ _ (run_ret _ _)).
  destruct (getitem ms 1) as [monitor | e]; cbn [bind_result after fold_left];
    [| reflexivity].
  rewrite (run_try_bind _ _ _ _ _ (run_grab _ _)).
  cbn [apply_call n_grab script]. rewrite Hg.
  destruct (on_grab (script w) i monitor) as [sct_img | e]; cbn [bind_result];
    [apply run_ret | reflexivity].
Qed.

Lemma trace_after (calls : list call) (w : World) :
  trace (after calls w) = trace w ++ calls.
Proof.
  revert w. induction calls as [| c calls IH]; intros w; cbn [after fold_left].
  - now rewrite app_nil_r.
  - fold (after calls (apply_call c w)). rewrite IH.
    replace (trace (apply_call c w)) with (trace w ++ [c]).
    + now rewrite <- app_assoc.
    + destruct c; try reflexivity. cbn [apply_call].
      now destruct (pending w) as [| [? ?] ?].
Qed.

Lemma after_in_loop (calls : list call) (w : World) :
  forallb in_loop calls = true ->
  pending (after calls w) = pending w
  /\ script (after calls w) = script w
  /\ open_handles (after calls w) = open_handles w.
Proof.
  revert w. induction calls as [| c calls IH]; intros w Hall; cbn [after fold_left].
  - auto.
  - cbn [forallb] in Hall. apply andb_true_iff in Hall. destruct Hall as [Hc Hall].
    fold (after calls (apply_call c w)).
    destruct (IH (apply_call c w) Hall) as (-> & -> & ->).
    destruct c; try discriminate; auto.
Qed.

Lemma capture_calls_in_loop (s : Script) (i : nat) :
  forallb in_loop (capture_calls s i) = true.
Proof.
  unfold capture_calls. cbn [forallb in_loop andb].
  now destruct (bind_result (on_monitors s i) (fun ms => getitem ms 1)).
Qed.

Lemma iteration_calls_in_loop (s : Script) (i : nat) :
  forallb in_loop (iteration_calls resample native s i) = true.
Proof.
  unfold iteration_calls. rewrite forallb_app, capture_calls_in_loop.
  destruct (captured resample native s i) as [data |]; [| reflexivity].
  now destruct (on_send s i data).
Qed.

(** A capture that succeeds has made both of its calls. *)
Lemma captured_ok_calls (s : Script) (i : nat) (data : list byte) :
  captured resample native s i = Ok data ->
  exists ms monitor sct_img,
    on_monitors s i = Ok ms
    /\ nth_error ms 1 = Some monitor
    /\ on_grab s i monitor = Ok sct_img
    /\ transform resample native sct_img = Ok data
    /\ capture_calls s i = [Monitors (Ok ms); Grab monitor (Ok sct_img)].
Proof.
  unfold captured, capture_calls, getitem.
  destruct (on_monitors s i) as [ms |]; cbn [bind_result]; [| discriminate].
  destruct (nth_error ms 1) as [monitor |] eqn:Hnth; cbn [bind_result]; [| discriminate].
  destruct (on_grab s i monitor) as [sct_img |] eqn:Hgrab; cbn [bind_result];
    [| discriminate].
  intros Ht. exists ms, monitor, sct_img. repeat split; auto.
Qed.

Lemma stream_once_runs (w : World) (i : nat) :
  at_iteration w i ->
  run (stream_once resample native) w
  ≈ Ret (after (iteration_calls resample native (script w) i) w,
         iteration_result resample native (script w) i).
Proof.
  intros (Hm & Hg & Hs & Hz). unfold stream_once, iteration_calls, iteration_result.
  rewrite (run_try_bind _ _ _ _ _ (capture_runs w i Hm Hg)).
  rewrite after_app.
  destruct (after_in_loop (capture_calls (script w) i) w (capture_calls_in_loop _ _))
    as (_ & Hscript & _).
  destruct (captured resample native (script w) i) as [data | e] eqn:Hcap;
    cbn [bind_result]; [| reflexivity].
  set (w1 := after (capture_calls (script w) i) w) in *.
  assert (Hs1 : n_send w1 = i /\ n_sleep w1 = i).
  { destruct (captured_ok_calls _ _ _ Hcap) as (ms & monitor & f & _ & _ & _ & _ & Hcalls).
    subst w1. rewrite Hcalls. cbn. auto. }
  destruct Hs1 as [Hs1 Hz1].
  rewrite (run_try_bind _ _ _ _ _ (run_send _ _)).
  rewrite Hscript, Hs1.
  destruct (on_send (script w) i data) as [[] | e]; cbn [bind_result after fold_left];
    [| reflexivity].
  rewrite run_sleep. cbn [apply_call script n_sleep]. rewrite Hscript, Hz1.
  reflexivity.
Qed.

Lemma iteration_ok_advances (w : World) (i : nat) :
  at_iteration w i ->
  iteration_result resample native (script w) i = Ok tt ->
  at_iteration (after (iteration_calls resample native (script w) i) w) (S i).
Proof.
  intros (Hm & Hg & Hs & Hz). unfold iteration_result, iteration_calls.
  destruct (captured resample native (script w) i) as [data | e] eqn:Hcap;
    cbn [bind_result]; [| discriminate].
  destruct (captured_ok_calls _ _ _ Hcap) as (ms & monitor & f & _ & _ & _ & _ & ->).
  destruct (on_send (script w) i data) as [[] | e]; cbn [bind_result]; [| discriminate].
  intros _. unfold at_iteration. cbn. now rewrite Hm, Hg, Hs, Hz.
Qed.

(** ** The loop and the session *)

Lemma loop_body_runs (w : World) (i : nat) :
  at_iteration w i ->
  run (r <- stream_once resample native ;;
       match r with
       | Ok _ => Ret (inl tt)
       | Raise e => Ret (inr e)
       end) w
  ≈ Ret (after (iteration_calls resample native (script w) i) w,
         match iteration_result resample native (script w) i with
         | Ok _ => inl tt
         | Raise e => inr e
         end).
Proof.
  intros Hat. rewrite (run_bind_ret _ _ _ _ _ (stream_once_runs w i Hat)).
  destruct (iteration_result resample native (script w) i); apply run_ret.
Qed.

Lemma stream_loop_unfold (w : World) (i : nat) :
  at_iteration w i ->
  run (stream_loop resample native) w
  ≈ match iteration_result resample native (script w) i with
    | Ok _ =>
        run (stream_loop resample native)
            (after (iteration_calls resample native (script w) i) w)
    | Raise e => Ret (after (iteration_calls resample native (script w) i) w, e)
    end.
Proof.
  intros Hat. unfold stream_loop at 1. rewrite unfold_iter.
  rewrite (run_bind_ret _ _ _ _ _ (loop_body_runs w i Hat)).
  destruct (iteration_result resample native (script w) i) as [[] | e]; cbn.
  - unfold run. rewrite interp_state_tau, tau_eutt. reflexivity.
  - apply run_ret.
Qed.

Lemma stream_loop_runs (k : nat) :
  forall (w : World) (i : nat) (e : exn),
    at_iteration w i ->
    (forall j, i <= j < i + k -> iteration_result resample native (script w) j = Ok tt) ->
    iteration_result resample native (script w) (i + k) = Raise e ->
    run (stream_loop resample native) w
    ≈ Ret (after (flat_map (iteration_calls resample native (script w)) (seq i (S k))) w, e).
Proof.
  induction k as [| k IH]; intros w i e Hat Hok Hend;
    rewrite (stream_loop_unfold w i Hat).
  - rewrite Nat.add_0_r in Hend. rewrite Hend.
    cbn [seq flat_map]. now rewrite app_nil_r.
  - rewrite (Hok i) by lia.
    pose proof (iteration_ok_advances w i Hat (Hok i ltac:(lia))) as Hat'.
    destruct (after_in_loop _ w (iteration_calls_in_loop (script w) i)) as (_ & Hscript & _).
    rewrite (IH _ (S i) e Hat').
    + rewrite Hscript.
      change (seq i (S (S k))) with (i :: seq (S i) (S k)).
      cbn [flat_map]. now rewrite after_app.
    + intros j Hj. rewrite Hscript. apply Hok. lia.
    + rewrite Hscript. replace (S i + k) with (i + S k) by lia. exact Hend.
Qed.

Lemma except_clauses_run (e : exn) (w : World) :
  run (except_clauses e) w
  ≈ Ret (match e with
         | ConnectionClosed code reason => apply_call (Print (Disconnected reason code)) w
         | PyException _ _ => apply_call (Print (Unexpected e)) w
         | PyBaseException _ => w
         end, handler_result e).
Proof.
  destruct e as [code reason | cls msg | cls]; cbn [except_clauses].
  - rewrite (run_bind_ret _ _ _ _ _ (run_print _ _)). apply run_ret.
  - rewrite (run_bind_ret _ _ _ _ _ (run_print _ _)). apply run_ret.
  - apply run_ret.
Qed.

Lemma epilogue_runs (e : exn) (w : World) :
  run (r <- except_clauses e ;;
       ITree.trigger (print Closed) ;;
       ITree.trigger mss_exit ;;
       Ret r) w
  ≈ Ret (after (epilogue_calls e) w, handler_result e).
Proof.
  rewrite (run_bind_ret _ _ _ _ _ (except_clauses_run e w)).
  rewrite (run_bind_ret _ _ _ _ _ (run_print _ _)).
  rewrite (run_bind_ret _ _ _ _ _ (run_mss_exit _)).
  rewrite run_ret. now destruct e.
Qed.

(** A session whose capture source opens and whose loop ends in iteration
    [n] with [e]: the calls it makes and what [handler] returns. *)
Lemma handler_runs (websocket : WebSocket) (w : World) (n : nat) (e : exn) :
  at_iteration w 0 ->
  on_enter (script w) = Ok tt ->
  ends_at resample native (script w) n e ->
  run (handler resample native websocket) w
  ≈ Ret (after (session_calls resample native websocket (script w) n e) w,
         handler_result e).
Proof.
  intros Hat Henter [Hok Hend]. unfold handler.
  rewrite (run_bind_ret _ _ _ _ _ (run_print _ _)).
  set (w1 := apply_call (Print (Connected (remote_address websocket))) w).
  rewrite (run_try_bind _ _ _ _ _ (run_mss_enter w1)).
  change (on_enter (script w1)) with (on_enter (script w)). rewrite Henter.
  set (w2 := apply_call (Enter (Ok tt)) w1).
  assert (Hat2 : at_iteration w2 0) by exact Hat.
  assert (Hscript : script w2 = script w) by reflexivity.
  rewrite (run_bind_ret _ _ _ _ _ (stream_loop_runs n w2 0 e Hat2
             ltac:(rewrite Hscript; intros j Hj; apply Hok; lia)
             ltac:(rewrite Hscript; exact Hend))).
  rewrite epilogue_runs.
  unfold session_calls, loop_calls. rewrite !after_app, Hscript. reflexivity.
Qed.

(** A session whose capture source cannot be opened: [mss()] raises
    outside the [try], and the exception leaves [handler]. *)
Lemma handler_enter_fails (websocket : WebSocket) (w : World) (e : exn) :
  on_enter (script w) = Raise e ->
  run (handler resample native websocket) w
  ≈ Ret (after [Print (Connected (remote_address websocket)); Enter (Raise e)] w,
         Raise e).
Proof.
  intros Henter. unfold handler.
  rewrite (run_bind_ret _ _ _ _ _ (run_print _ _)).
  set (w1 := apply_call (Print (Connected (remote_address websocket))) w).
  rewrite (run_try_bind _ _ _ _ _ (run_mss_enter w1)).
  change (on_enter (script w1)) with (on_enter (script w)). rewrite Henter.
  reflexivity.
Qed.

(** ** What a session leaves in the trace *)

Lemma attempted_sends_app (l1 l2 : list call) :
  attempted_sends (l1 ++ l2) = attempted_sends l1 ++ attempted_sends l2.
Proof.
  induction l1 as [| c l1 IH]; [reflexivity |].
  destruct c; cbn [app attempted_sends]; rewrite IH; reflexivity.
Qed.

Lemma delivered_app (l1 l2 : list call) :
  delivered (l1 ++ l2) = delivered l1 ++ delivered l2.
Proof.
  induction l1 as [| c l1 IH]; [reflexivity |].
  destruct c as [| | | | | | m [] | ]; cbn [app delivered]; rewrite IH; reflexivity.
Qed.

Lemma slept_app (l1 l2 : list call) : slept (l1 ++ l2) == slept l1 + slept l2.
Proof.
  induction l1 as [| c l1 IH]; cbn [app slept]; [ring |].
  destruct c as [| | | | | | | d []]; cbn [slept]; rewrite ?IH; ring.
Qed.

Lemma iteration_ok_calls (s : Script) (i : nat) :
  iteration_result resample native s i = Ok tt ->
  exists ms monitor sct_img,
    on_monitors s i = Ok ms
    /\ nth_error ms 1 = Some monitor
    /\ on_grab s i monitor = Ok sct_img
    /\ transform resample native sct_img = Ok (frame_of resample native s i)
    /\ iteration_calls resample native s i
       = [Monitors (Ok ms); Grab monitor (Ok sct_img);
          Send (frame_of resample native s i) (Ok tt); Sleep frame_interval (Ok tt)].
Proof.
  unfold iteration_result, iteration_calls, frame_of.
  destruct (captured resample native s i) as [data |] eqn:Hcap; cbn [bind_result];
    [| discriminate].
  destruct (captured_ok_calls _ _ _ Hcap) as (ms & monitor & f & Hms & Hnth & Hgrab & Ht & ->).
  destruct (on_send s i data) as [[] |]; cbn [bind_result]; [| discriminate].
  intros ->. exists ms, monitor, f. repeat split; assumption.
Qed.

Lemma complete_iterations (s : Script) (n : nat) :
  forall i,
    (forall j, i <= j < i + n -> iteration_result resample native s j = Ok tt) ->
    attempted_sends (flat_map (iteration_calls resample native s) (seq i n))
    = map (frame_of resample native s) (seq i n)
    /\ delivered (flat_map (iteration_calls resample native s) (seq i n))
       = map (frame_of resample native s) (seq i n)
    /\ slept (flat_map (iteration_calls resample native s) (seq i n))
       == inject_Z (Z.of_nat n) * frame_interval.
Proof.
  induction n as [| n IH]; intros i Hok.
  - cbn. repeat split; ring.
  - cbn [seq flat_map map].
    destruct (iteration_ok_calls s i (Hok i ltac:(lia))) as (ms & m & f & _ & _ & _ & _ & ->).
    destruct (IH (S i)) as (Ha & Hd & Hs); [intros j Hj; apply Hok; lia |].
    rewrite attempted_sends_app, delivered_app, slept_app, Ha, Hd, Hs.
    repeat split.
    rewrite Nat2Z.inj_succ. unfold Z.succ. rewrite inject_Z_plus.
    cbn [slept]. ring.
Qed.

Lemma capture_failure_calls (s : Script) (i : nat) (e : exn) :
  captured resample native s i = Raise e ->
  iteration_result resample native s i = Raise e
  /\ iteration_calls resample native s i = capture_calls s i
  /\ attempted_sends (capture_calls s i) = []
  /\ delivered (capture_calls s i) = []
  /\ slept (capture_calls s i) == 0.
Proof.
  intros Hcap. unfold iteration_result, iteration_calls. rewrite Hcap.
  cbn [bind_result]. rewrite app_nil_r. unfold capture_calls.
  destruct (bind_result (on_monitors s i) (fun ms => getitem ms 1));
    cbn; repeat split; reflexivity.
Qed.

Lemma frames_complete (s : Script) (n : nat) :
  (forall j, j < n -> iteration_result resample native s j = Ok tt) ->
  Forall (fun frame_data => Z.of_nat (length frame_data) = 411640%Z)
         (map (frame_of resample native s) (seq 0 n)).
Proof.
  intros Hok. apply Forall_forall. intros data Hin.
  apply in_map_iff in Hin. destruct Hin as (j & <- & Hj).
  apply in_seq in Hj.
  destruct (iteration_ok_calls s j (Hok j ltac:(lia))) as (_ & _ & f & _ & _ & _ & Ht & _).
  exact (transform_ok_length resample native f _ Ht).
Qed.

Lemma session_releases (websocket : WebSocket) (w : World) (n : nat) (e : exn) :
  pending (after (session_calls resample native websocket (script w) n e) w) = pending w
  /\ open_handles (after (session_calls resample native websocket (script w) n e) w)
     = open_handles w.
Proof.
  unfold session_calls. rewrite !after_app.
  set (w2 := after [Print (Connected (remote_address websocket)); Enter (Ok tt)] w).
  assert (Hall : forallb in_loop (loop_calls resample native (script w) n) = true).
  { unfold loop_calls. generalize (seq 0 (S n)). intros l.
    induction l as [| j l IH]; [reflexivity |].
    cbn [flat_map]. now rewrite forallb_app, iteration_calls_in_loop, IH. }
  destruct (after_in_loop _ w2 Hall) as (Hp & _ & Ho).
  change (pending w2) with (pending w) in Hp.
  change (open_handles w2) with (S (open_handles w)) in Ho.
  revert Hp Ho. generalize (after (loop_calls resample native (script w) n) w2).
  intros w3 Hp Ho.
  destruct e; cbn [epilogue_calls after fold_left apply_call pending open_handles];
    rewrite Hp, Ho; auto.
Qed.

Lemma loop_calls_split (s : Script) (n : nat) :
  loop_calls resample native s n
  = flat_map (iteration_calls resample native s) (seq 0 n)
    ++ iteration_calls resample native s n.
Proof.
  unfold loop_calls. rewrite seq_S, flat_map_app. cbn [flat_map Nat.add].
  now rewrite app_nil_r.
Qed.

(** The whole of a session, as the theorems below read it: what [handler]
    returns, what it leaves in the trace, and what it holds on return. *)
Lemma session_summary (websocket : WebSocket) (w : World) (n : nat) (e : exn) :
  at_iteration w 0 ->
  on_enter (script w) = Ok tt ->
  ends_at resample native (script w) n e ->
  exists w',
    run (handler resample native websocket) w ≈ Ret (w', handler_result e)
    /\ trace w'
       = trace w
         ++ [Print (Connected (remote_address websocket)); Enter (Ok tt)]
         ++ flat_map (iteration_calls resample native (script w)) (seq 0 n)
         ++ iteration_calls resample native (script w) n
         ++ epilogue_calls e
    /\ pending w' = pending w
    /\ open_handles w' = open_handles w.
Proof.
  intros Hat Henter Hends.
  exists (after (session_calls resample native websocket (script w) n e) w).
  split; [now apply handler_runs |].
  split; [| apply session_releases].
  rewrite trace_after. unfold session_calls.
  now rewrite loop_calls_split, <- !app_assoc.
Qed.

Lemma epilogue_sends_nothing (e : exn) :
  attempted_sends (epilogue_calls e) = [] /\ delivered (epilogue_calls e) = [].
Proof. now destruct e. Qed.

Lemma epilogue_ends_closed (e : exn) :
  exists before, epilogue_calls e = before ++ [Print Closed; Exit].
Proof.
  destruct e as [code reason | cls msg | cls].
  - now exists [Print (Disconnected reason code)].
  - now exists [Print (Unexpected (PyException cls msg))].
  - now exists [].
Qed.

(** C5: when the capture of iteration [N] raises an exception, the session
    has sent the [N - 1] whole frames of the iterations before and nothing
    else, makes no further call to the capture source or to the peer,
    prints its two closing lines, releases the capture handle and returns
    normally. *)
Theorem capture_failure_closes_session
  (websocket : WebSocket) (w : World) (N : nat) (e : exn) :
  1 <= N ->
  at_iteration w 0 ->
  on_enter (script w) = Ok tt ->
  (forall i, i < N - 1 -> iteration_result resample native (script w) i = Ok tt) ->
  captured resample native (script w) (N - 1) = Raise e ->
  isinstance_Exception e = true ->
  exists w',
    run (handler resample native websocket) w ≈ Ret (w', Ok tt)
    /\ trace w'
       = trace w
         ++ [Print (Connected (remote_address websocket)); Enter (Ok tt)]
         ++ flat_map (iteration_calls resample native (script w)) (seq 0 (N - 1))
         ++ capture_calls (script w) (N - 1)
         ++ epilogue_calls e
    /\ attempted_sends (trace w')
       = attempted_sends (trace w)
         ++ map (frame_of resample native (script w)) (seq 0 (N - 1))
    /\ delivered (trace w')
       = delivered (trace w) ++ map (frame_of resample native (script w)) (seq 0 (N - 1))
    /\ length (map (frame_of resample native (script w)) (seq 0 (N - 1))) = N - 1
    /\ Forall (fun frame_data => Z.of_nat (length frame_data) = 411640%Z)
              (map (frame_of resample native (script w)) (seq 0 (N - 1)))
    /\ (exists before, trace w' = before ++ [Print Closed; Exit])
    /\ open_handles w' = open_handles w.
Proof.
  intros _ Hat Henter Hok Hcap Hexc.
  destruct (capture_failure_calls _ _ _ Hcap) as (Hres & Hcalls & Hsends & Hdel & _).
  destruct (session_summary websocket w (N - 1) e Hat Henter (conj Hok Hres))
    as (w' & Hrun & Htrace & _ & Hopen).
  destruct (complete_iterations (script w) (N - 1) 0 ltac:(intros j Hj; apply Hok; lia))
    as (Hatt & Hdeliv & _).
  destruct (epilogue_sends_nothing e) as [He1 He2].
  rewrite Hcalls in Htrace.
  exists w'. unfold handler_result in Hrun. rewrite Hexc in Hrun.
  split; [exact Hrun |]. split; [exact Htrace |].
  split; [| split; [| split; [| split; [| split]]]].
  - rewrite Htrace, !attempted_sends_app, Hatt, Hsends, He1.
    cbn [attempted_sends]. now rewrite !app_nil_r.
  - rewrite Htrace, !delivered_app, Hdeliv, Hdel, He2.
    cbn [delivered]. now rewrite !app_nil_r.
  - now rewrite length_map, length_seq.
  - now apply frames_complete.
  - destruct (epilogue_ends_closed e) as [before Hbefore].
    rewrite Htrace, Hbefore. eexists. now rewrite !app_assoc.
  - exact Hopen.
Qed.

(** ** The server *)







(** ** Frames the decoder refuses *)

(** A frame with a zero dimension is decoded to an image without pixels,
    which [resize] fills to the size of the display like any other. *)
Lemma transform_zero_sized (z : ScreenShot) :
  fst (size z) = 0 \/ snd (size z) = 0 ->
  exists out,
    transform resample native z = Ok out /\ Z.of_nat (length out) = 411640%Z.
Proof.
  intros Hzero. unfold transform.
  assert (Hdec : exists img, frombytes (size z) (bgra z) = Ok img).
  { destruct z as [[w h] data]. cbn [size bgra fst snd] in *. unfold frombytes.
    replace ((w =? 0) || (h =? 0)) with true; [now eexists |].
    symmetry. apply orb_true_iff.
    destruct Hzero as [-> | ->]; [now left | now right]. }
  destruct Hdec as [img Himg].
  destruct (resize_size resample (rotate_90_expand img) DISPLAY_WIDTH DISPLAY_HEIGHT)
    as (res & Hres & _);
    [apply transpose_ROTATE_90_wf | unfold DISPLAY_WIDTH; lia | unfold DISPLAY_HEIGHT; lia |].
  unfold transform_to. rewrite Himg. cbn [bind_result]. rewrite Hres. cbn [bind_result].
  eexists. split; [reflexivity |].
  apply (transform_ok_length resample native z).
  unfold transform, transform_to. rewrite Himg. cbn [bind_result]. rewrite Hres.
  reflexivity.
Qed.

(** C7, as the code has it: the pipeline checks nothing itself.  A frame
    of non-zero size whose buffer is shorter than four bytes a pixel makes
    it fail with the [ValueError] of the imaging library; in a session the
    error reaches the loop, nothing is sent for that frame or after it, and
    the session closes as for any other [Exception].  A frame with a zero
    dimension is not refused: the pipeline returns a buffer of the full
    411640 bytes for it, and the loop sends that buffer.  A buffer the
    pipeline returns is never a partial one. *)
Theorem short_frame_fails_empty_frame_is_sent
  (websocket : WebSocket) (w : World) (n : nat)
  (ms : list Monitor) (monitor : Monitor) (f : ScreenShot) :
  fst (size f) <> 0 -> snd (size f) <> 0 ->
  length (bgra f) < 4 * fst (size f) * snd (size f) ->
  at_iteration w 0 ->
  on_enter (script w) = Ok tt ->
  (forall i, i < n -> iteration_result resample native (script w) i = Ok tt) ->
  on_monitors (script w) n = Ok ms ->
  nth_error ms 1 = Some monitor ->
  on_grab (script w) n monitor = Ok f ->
  let error := PyException "ValueError" "not enough image data" in
  transform resample native f = Raise error
  /\ (forall g out, transform resample native g = Ok out ->
                    Z.of_nat (length out) = 411640%Z)
  /\ (exists w',
       run (handler resample native websocket) w ≈ Ret (w', Ok tt)
       /\ trace w'
          = trace w
            ++ [Print (Connected (remote_address websocket)); Enter (Ok tt)]
            ++ flat_map (iteration_calls resample native (script w)) (seq 0 n)
            ++ [Monitors (Ok ms); Grab monitor (Ok f);
                Print (Unexpected error); Print Closed; Exit]
       /\ attempted_sends (trace w')
          = attempted_sends (trace w)
            ++ map (frame_of resample native (script w)) (seq 0 n)
       /\ open_handles w' = open_handles w)
  /\ (forall z, fst (size z) = 0 \/ snd (size z) = 0 ->
        exists out,
          transform resample native z = Ok out /\ Z.of_nat (length out) = 411640%Z)
  /\ (forall (s : Script) (i : nat) ms' monitor' z,
        on_monitors s i = Ok ms' ->
        nth_error ms' 1 = Some monitor' ->
        on_grab s i monitor' = Ok z ->
        fst (size z) = 0 \/ snd (size z) = 0 ->
        exists out,
          captured resample native s i = Ok out
          /\ Z.of_nat (length out) = 411640%Z
          /\ iteration_calls resample native s i
             = Monitors (Ok ms') :: Grab monitor' (Ok z) :: Send out (on_send s i out)
               :: match on_send s i out with
                  | Ok _ => [Sleep frame_interval (on_sleep s i frame_interval)]
                  | Raise _ => []
                  end).
Proof.
  intros Hw Hh Hlen Hat Henter Hok Hms Hnth Hgrab error.
  pose proof (transform_short_buffer resample native f Hw Hh Hlen) as Hfail.
  fold error in Hfail.
  split; [exact Hfail |]. split; [apply transform_ok_length |].
  split; [| split; [exact transform_zero_sized |]].
  - assert (Hcap : captured resample native (script w) n = Raise error).
    { unfold captured, getitem. rewrite Hms. cbn [bind_result].
      rewrite Hnth. cbn [bind_result]. rewrite Hgrab. exact Hfail. }
    assert (Hcc : capture_calls (script w) n = [Monitors (Ok ms); Grab monitor (Ok f)]).
    { unfold capture_calls, getitem. rewrite Hms. cbn [bind_result].
      rewrite Hnth. now rewrite Hgrab. }
    destruct (capture_failure_calls _ _ _ Hcap) as (Hres & Hcalls & _).
    destruct (session_summary websocket w n error Hat Henter (conj Hok Hres))
      as (w' & Hrun & Htrace & _ & Hopen).
    destruct (complete_iterations (script w) n 0 ltac:(intros j Hj; apply Hok; lia))
      as (Hatt & _ & _).
    rewrite Hcalls, Hcc in Htrace.
    exists w'. split; [exact Hrun |]. split; [exact Htrace |]. split; [| exact Hopen].
    rewrite Htrace, !attempted_sends_app, Hatt.
    cbn [attempted_sends epilogue_calls error app].
    now rewrite !app_nil_r.
  - intros s i ms' monitor' z Hms' Hnth' Hgrab' Hzero.
    destruct (transform_zero_sized z Hzero) as (out & Hout & Hfull).
    exists out.
    assert (Hcap : captured resample native s i = Ok out).
    { unfold captured, getitem. rewrite Hms'. cbn [bind_result].
      rewrite Hnth'. cbn [bind_result]. rewrite Hgrab'. exact Hout. }
    split; [exact Hcap |]. split; [exact Hfull |].
    unfold iteration_calls, capture_calls, getitem. rewrite Hcap, Hms'. cbn [bind_result].
    rewrite Hnth', Hgrab'. reflexivity.
Qed.

(** ** The order of the calls of one iteration *)

(** C8: an iteration that runs to its end captures, transforms, sends the
    whole frame and only then sleeps, for [1 / TARGET_FPS] whatever the
    calls before took; the next iteration starts from the world the sleep
    left.  Each frame delivered therefore costs one more full interval of
    sleep. *)
Theorem iteration_captures_sends_then_sleeps (w : World) (i : nat) :
  at_iteration w i ->
  iteration_result resample native (script w) i = Ok tt ->
  exists ms monitor sct_img frame_data w',
    run (stream_once resample native) w ≈ Ret (w', Ok tt)
    /\ transform resample native sct_img = Ok frame_data
    /\ trace w'
       = trace w
         ++ [Monitors (Ok ms); Grab monitor (Ok sct_img);
             Send frame_data (Ok tt); Sleep frame_interval (Ok tt)]
    /\ frame_interval == 1 / inject_Z TARGET_FPS
    /\ frame_interval == 1 # 20
    /\ delivered (trace w') = delivered (trace w) ++ [frame_data]
    /\ slept (trace w') == slept (trace w) + frame_interval
    /\ at_iteration w' (S i)
    /\ run (stream_loop resample native) w ≈ run (stream_loop resample native) w'.
Proof.
  intros Hat Hok.
  destruct (iteration_ok_calls (script w) i Hok)
    as (ms & monitor & f & _ & _ & _ & Ht & Hcalls).
  exists ms, monitor, f, (frame_of resample native (script w) i),
    (after (iteration_calls resample native (script w) i) w).
  split; [rewrite <- Hok; now apply stream_once_runs |].
  split; [exact Ht |].
  rewrite trace_after, Hcalls.
  split; [reflexivity |]. split; [reflexivity |]. split; [reflexivity |].
  split; [| split; [| split]].
  - rewrite delivered_app. reflexivity.
  - rewrite slept_app. cbn [slept]. ring.
  - rewrite <- Hcalls. now apply iteration_ok_advances.
  - rewrite (stream_loop_unfold w i Hat), Hok, Hcalls. reflexivity.
Qed.

(** ** Every way out of the session *)

(** C9, as the code has it: whatever exception ends the loop, [handler]
    prints its closing line and releases the capture handle before it is
    left.  An instance of [Exception] is caught: [ConnectionClosed] by the
    first clause, every other one by the second, which makes no difference
    between them; [handler] then returns normally.  An exception that is
    not an instance of [Exception] is caught by neither clause and leaves
    [handler]. *)
Theorem every_exit_releases_capture
  (websocket : WebSocket) (w : World) (n : nat) (e : exn) :
  at_iteration w 0 ->
  on_enter (script w) = Ok tt ->
  ends_at resample native (script w) n e ->
  exists w',
    run (handler resample native websocket) w
    ≈ Ret (w', if isinstance_Exception e then Ok tt else Raise e)
    /\ (exists before, trace w' = before ++ [Print Closed; Exit])
    /\ open_handles w' = open_handles w
    /\ (forall code reason,
          e = ConnectionClosed code reason ->
          exists before,
            trace w' = before ++ [Print (Disconnected reason code); Print Closed; Exit])
    /\ (forall cls msg,
          e = PyException cls msg ->
          exists before,
            trace w' = before ++ [Print (Unexpected e); Print Closed; Exit])
    /\ (forall cls,
          e = PyBaseException cls ->
          exists before,
            trace w'
            = before ++ iteration_calls resample native (script w) n
                     ++ [Print Closed; Exit]).
Proof.
  intros Hat Henter Hends.
  destruct (session_summary websocket w n e Hat Henter Hends)
    as (w' & Hrun & Htrace & _ & Hopen).
  exists w'. split; [exact Hrun |].
  split; [| split; [exact Hopen |]].
  - destruct (epilogue_ends_closed e) as [before Hbefore].
    rewrite Htrace, Hbefore. eexists. now rewrite !app_assoc.
  - split; [| split].
    + intros code reason ->. rewrite Htrace. cbn [epilogue_calls].
      eexists. now rewrite !app_assoc.
    + intros cls msg ->. rewrite Htrace. cbn [epilogue_calls].
      eexists. now rewrite !app_assoc.
    + intros cls ->. rewrite Htrace. cbn [epilogue_calls].
      eexists. now rewrite !app_assoc.
Qed.

(** ** Scripts with valid frames *)

Lemma captured_valid (s : Script) (i : nat) (ms : list Monitor) (monitor : Monitor)
  (f : ScreenShot) :
  on_monitors s i = Ok ms -> nth_error ms 1 = Some monitor ->
  on_grab s i monitor = Ok f -> valid_frame f ->
  exists frame_data, captured resample native s i = Ok frame_data.
Proof.
  intros Hms Hnth Hgrab Hf. unfold captured, getitem.
  rewrite Hms. cbn [bind_result]. rewrite Hnth. cbn [bind_result].
  rewrite Hgrab. cbn [bind_result].
  destruct (transform_valid resample native f Hf) as (out & Hout & _).
  now exists out.
Qed.

Lemma iteration_valid (s : Script) (i : nat) (ms : list Monitor) (monitor : Monitor)
  (f : ScreenShot) (r : result unit) :
  on_monitors s i = Ok ms -> nth_error ms 1 = Some monitor ->
  on_grab s i monitor = Ok f -> valid_frame f ->
  (forall message, on_send s i message = r) ->
  on_sleep s i frame_interval = Ok tt ->
  iteration_result resample native s i = r.
Proof.
  intros Hms Hnth Hgrab Hf Hsend Hsleep.
  destruct (captured_valid s i ms monitor f Hms Hnth Hgrab Hf) as [data Hcap].
  unfold iteration_result. rewrite Hcap. cbn [bind_result]. rewrite Hsend.
  destruct r as [[] | e]; [exact Hsleep | reflexivity].
Qed.

End SessionFacts.

(** * The sample sessions *)

Lemma fresh_at_start (s : Script) (peers : list (WebSocket * Script)) :
  at_iteration (fresh s peers) 0.
Proof. repeat split. Defined.

Lemma steady_iterations (i : nat) : iteration_result nearest little steady i = Ok tt.
Proof.
  apply (iteration_valid nearest little steady i two_monitors (mkMonitor 0 0 2 1)
           sample_frame); try reflexivity.
  exact sample_frame_valid.
Qed.

Lemma capture_lost_iterations (i : nat) :
  i < 2 -> iteration_result nearest little capture_lost i = Ok tt.
Proof.
  intros Hi.
  apply (iteration_valid nearest little capture_lost i two_monitors (mkMonitor 0 0 2 1)
           sample_frame); try reflexivity; [| exact sample_frame_valid].
  unfold capture_lost. cbn [on_grab]. destruct (Nat.ltb_spec i 2); [reflexivity | lia].
Qed.

Lemma peer_gone_ends : ends_at nearest little peer_gone 1 (ConnectionClosed 1006 "").
Proof.
  split.
  - intros i Hi.
    apply (iteration_valid nearest little peer_gone i two_monitors (mkMonitor 0 0 2 1)
             sample_frame); try reflexivity; [exact sample_frame_valid |].
    intros message. unfold peer_gone. cbn [on_send].
    destruct (Nat.ltb_spec i 1); [reflexivity | lia].
  - apply (iteration_valid nearest little peer_gone 1 two_monitors (mkMonitor 0 0 2 1)
             sample_frame); try reflexivity.
    exact sample_frame_valid.
Qed.

Lemma frame_cut_short_iterations (i : nat) :
  i < 1 -> iteration_result nearest little frame_cut_short i = Ok tt.
Proof.
  intros Hi.
  apply (iteration_valid nearest little frame_cut_short i two_monitors (mkMonitor 0 0 2 1)
           sample_frame); try reflexivity; [| exact sample_frame_valid].
  unfold frame_cut_short. cbn [on_grab].
  destruct (Nat.ltb_spec i 1); [reflexivity | lia].
Qed.

Lemma interrupted_ends :
  ends_at nearest little interrupted 0 (PyBaseException "KeyboardInterrupt").
Proof. split; [intros i Hi; lia | reflexivity]. Qed.

Lemma capture_failure_closes_session_witness :
  exists w',
    run (handler nearest little peer) (fresh capture_lost []) ≈ Ret (w', Ok tt)
    /\ length (delivered (trace w')) = 2
    /\ length (attempted_sends (trace w')) = 2
    /\ open_handles w' = 0.
Proof.
  destruct (capture_failure_closes_session nearest little peer (fresh capture_lost []) 3
              (PyException "ScreenShotError" "XGetImage() failed"))
    as (w' & Hrun & _ & Hatt & Hdel & Hlen & _ & _ & Hopen).
  - lia.
  - apply fresh_at_start.
  - reflexivity.
  - exact capture_lost_iterations.
  - reflexivity.
  - reflexivity.
  - exists w'. split; [exact Hrun |].
    rewrite Hdel, Hatt. cbn [fresh trace delivered attempted_sends app].
    rewrite Hlen. repeat split. exact Hopen.
Defined.



Lemma short_frame_fails_empty_frame_is_sent_witness :
  transform nearest little short_frame
  = Raise (PyException "ValueError" "not enough image data")
  /\ (exists w',
        run (handler nearest little peer) (fresh frame_cut_short []) ≈ Ret (w', Ok tt)
        /\ length (attempted_sends (trace w')) = 1
        /\ open_handles w' = 0)
  /\ exists out,
       transform nearest little empty_frame = Ok out
       /\ Z.of_nat (length out) = 411640%Z.
Proof.
  destruct (short_frame_fails_empty_frame_is_sent nearest little peer
              (fresh frame_cut_short []) 1 two_monitors (mkMonitor 0 0 2 1) short_frame)
    as (Hfail & _ & (w' & Hrun & _ & Hatt & Hopen) & Hempty & _).
  - cbn. discriminate.
  - cbn. discriminate.
  - cbn. lia.
  - apply fresh_at_start.
  - reflexivity.
  - exact frame_cut_short_iterations.
  - reflexivity.
  - reflexivity.
  - reflexivity.
  - split; [exact Hfail |]. split.
    + exists w'. split; [exact Hrun |].
      rewrite Hatt. cbn [fresh trace attempted_sends app]. rewrite length_map.
      split; [reflexivity | exact Hopen].
    + apply (Hempty empty_frame). now left.
Defined.

Lemma iteration_captures_sends_then_sleeps_witness :
  exists w',
    run (stream_once nearest little) (fresh steady []) ≈ Ret (w', Ok tt)
    /\ slept (trace w') == 1 # 20
    /\ at_iteration w' 1.
Proof.
  destruct (iteration_captures_sends_then_sleeps nearest little (fresh steady []) 0)
    as (ms & monitor & f & data & w' & Hrun & _ & _ & _ & Hq & _ & Hslept & Hat & _).
  - apply fresh_at_start.
  - apply steady_iterations.
  - exists w'. split; [exact Hrun |]. split; [| exact Hat].
    rewrite Hslept, Hq. reflexivity.
Defined.

Lemma every_exit_releases_capture_witness :
  exists w',
    run (handler nearest little peer) (fresh interrupted [])
    ≈ Ret (w', Raise (PyBaseException "KeyboardInterrupt"))
    /\ (exists before, trace w' = before ++ [Print Closed; Exit])
    /\ open_handles w' = 0.
Proof.
  destruct (every_exit_releases_capture nearest little peer (fresh interrupted []) 0
              (PyBaseException "KeyboardInterrupt"))
    as (w' & Hrun & Hclosed & Hopen & _).
  - apply fresh_at_start.
  - reflexivity.
  - exact interrupted_ends.
  - exists w'. split; [exact Hrun |]. split; [exact Hclosed | exact Hopen].
Defined.

(** C7 as the specification words it fails on [empty_frame]: the frame is
    zero-sized, and the pipeline does not fail on it; it returns a buffer
    of the full length, which the loop goes on to send. *)
Lemma empty_frame_is_not_rejected :
  fst (size empty_frame) = 0 /\ snd (size empty_frame) = 0
  /\ (~ exists e, transform nearest little empty_frame = Raise e)
  /\ exists out,
       transform nearest little empty_frame = Ok out
       /\ Z.of_nat (length out) = 411640%Z
       /\ forall (s : Script) (i : nat),
            on_monitors s i = Ok two_monitors ->
            on_grab s i (mkMonitor 0 0 2 1) = Ok empty_frame ->
            In (Send out (on_send s i out)) (iteration_calls nearest little s i).
Proof.
  split; [reflexivity |]. split; [reflexivity |].
  destruct (transform_zero_sized nearest little empty_frame (or_introl eq_refl))
    as (out & Hout & Hfull).
  split.
  - intros [e He]. rewrite Hout in He. discriminate.
  - exists out. split; [exact Hout |]. split; [exact Hfull |].
    intros s i Hms Hgrab.
    assert (Hcap : captured nearest little s i = Ok out).
    { unfold captured, getitem. rewrite Hms. cbn [bind_result two_monitors nth_error].
      rewrite Hgrab. exact Hout. }
    unfold iteration_calls. rewrite Hcap. apply in_or_app. right. now left.
Qed.

(** C9 as the specification words it fails on [interrupted]: the loop
    ends with a [KeyboardInterrupt], which [handler] does not catch; it
    does not return normally. *)
Lemma keyboard_interrupt_leaves_handler :
  at_iteration (fresh interrupted []) 0
  /\ on_enter (script (fresh interrupted [])) = Ok tt
  /\ ends_at nearest little (script (fresh interrupted [])) 0
             (PyBaseException "KeyboardInterrupt")
  /\ ~ exists w',
         run (handler nearest little peer) (fresh interrupted []) ≈ Ret (w', Ok tt).
Proof.
  split; [apply fresh_at_start |]. split; [reflexivity |].
  split; [exact interrupted_ends |].
  intros [w' Hok].
  destruct (session_summary nearest little peer (fresh interrupted []) 0
              (PyBaseException "KeyboardInterrupt") (fresh_at_start _ _) eq_refl
              interrupted_ends) as (w1 & Hrun & _).
  rewrite Hrun in Hok. apply eutt_inv_Ret in Hok. discriminate.
Qed.

(** * Further properties of the pixel pipeline *)

Lemma frombytes_size (sz : nat * nat) (data : list byte) (img : Image) :
  frombytes sz data = Ok img ->
  im_width img = fst sz /\ im_height img = snd sz /\ wf_image img.
Proof.
  destruct sz as [w h]. unfold frombytes. cbn [fst snd].
  destruct ((w =? 0) || (h =? 0)) eqn:Hzero.
  - intros [= <-]. cbn [im_width im_height]. repeat split.
    + cbn [im_rows]. apply repeat_length.
    + cbn [im_rows im_width]. apply Forall_forall. intros row Hrow.
      apply orb_true_iff in Hzero. destruct Hzero as [Hw | Hh].
      * apply Nat.eqb_eq in Hw. subst w. now rewrite (repeat_spec _ _ _ Hrow).
      * apply Nat.eqb_eq in Hh. subst h. destruct Hrow.
  - destruct (raw_decode w h data) as [rows |] eqn:Hrows; [| discriminate].
    intros [= <-]. destruct (raw_decode_rows _ _ _ _ Hrows) as (Hl & Hall & _).
    repeat split; assumption.
Qed.

Lemma frombytes_enough (f : ScreenShot) :
  fst (size f) <> 0 -> snd (size f) <> 0 ->
  4 * fst (size f) * snd (size f) <= length (bgra f) ->
  exists img,
    frombytes (size f) (bgra f) = Ok img
    /\ forall x y, x < fst (size f) -> y < snd (size f) ->
         getpixel img x y
         = mkPixel (nth (4 * (y * fst (size f) + x) + 2) (bgra f) x00)
                   (nth (4 * (y * fst (size f) + x) + 1) (bgra f) x00)
                   (nth (4 * (y * fst (size f) + x)) (bgra f) x00).
Proof.
  destruct f as [[w h] data]. cbn [size bgra fst snd]. intros Hw Hh Hlen.
  unfold frombytes.
  destruct (Nat.eqb_spec w 0) as [-> | _]; [contradiction |].
  destruct (Nat.eqb_spec h 0) as [-> | _]; [contradiction |].
  cbn [orb].
  destruct (raw_decode_enough w h data Hlen) as [rows Hrows].
  rewrite Hrows. exists (mkImage w h rows). split; [reflexivity |].
  exact (proj2 (proj2 (raw_decode_rows _ _ _ _ Hrows))).
Qed.

(** Two images of the same size with the same pixel in every place are the
    same image. *)
Lemma image_ext (a b : Image) :
  wf_image a -> wf_image b ->
  im_width a = im_width b -> im_height a = im_height b ->
  (forall x y, x < im_width a -> y < im_height a -> getpixel a x y = getpixel b x y) ->
  a = b.
Proof.
  destruct a as [wa ha rowsa], b as [wb hb rowsb]. unfold wf_image, getpixel.
  cbn [im_width im_height im_rows].
  intros [Hla Hra] [Hlb Hrb] <- <- Hpix. f_equal.
  rewrite Forall_forall in Hra, Hrb.
  apply (nth_ext _ _ [] []); [congruence |].
  intros y Hy.
  assert (Ha : length (nth y rowsa []) = wa) by (apply Hra, nth_In; exact Hy).
  assert (Hb : length (nth y rowsb []) = wa) by (apply Hrb, nth_In; lia).
  apply (nth_ext _ _ black black); [congruence |].
  intros x Hx. apply Hpix; lia.
Qed.

Section MorePipelineFacts.

Variable resample : Image -> nat * nat -> nat -> nat -> Pixel.
Variable native : byteorder.

(** X1: the pipeline accepts a frame of non-zero size exactly when its buffer
    holds at least four bytes for each pixel; more bytes than that are no
    error. *)
Theorem transform_succeeds_iff_enough_bytes (f : ScreenShot) :
  fst (size f) <> 0 -> snd (size f) <> 0 ->
  (exists out, transform resample native f = Ok out)
  <-> 4 * fst (size f) * snd (size f) <= length (bgra f).
Proof.
  intros Hw Hh. split.
  - intros [out Hout].
    destruct (Nat.le_gt_cases (4 * fst (size f) * snd (size f)) (length (bgra f)))
      as [Hle | Hlt]; [exact Hle |].
    rewrite (transform_short_buffer resample native f Hw Hh Hlt) in Hout. discriminate.
  - intros Hlen. destruct (frombytes_enough f Hw Hh Hlen) as (img & Himg & _).
    unfold transform, transform_to. rewrite Himg. cbn [bind_result].
    destruct (resize_size resample (rotate_90_expand img) DISPLAY_WIDTH DISPLAY_HEIGHT)
      as (res & -> & _);
      [apply transpose_ROTATE_90_wf | unfold DISPLAY_WIDTH; lia
       | unfold DISPLAY_HEIGHT; lia |].
    cbn [bind_result]. now eexists.
Qed.

(** X2: the output depends on the frame only through its size and the blue,
    green and red bytes of its first [4 * width * height] bytes: the fourth
    byte of every pixel and any bytes after the last pixel are never read. *)
Theorem transform_reads_only_colour_bytes (f g : ScreenShot) :
  size f = size g ->
  fst (size f) <> 0 -> snd (size f) <> 0 ->
  4 * fst (size f) * snd (size f) <= length (bgra f) ->
  4 * fst (size f) * snd (size f) <= length (bgra g) ->
  (forall i, i < 4 * fst (size f) * snd (size f) -> i mod 4 <> 3 ->
             nth i (bgra f) x00 = nth i (bgra g) x00) ->
  transform resample native f = transform resample native g.
Proof.
  intros Hsize Hw Hh Hf Hg Hsame.
  destruct (frombytes_enough f Hw Hh Hf) as (a & Ha & Hpa).
  destruct (frombytes_enough g) as (b & Hb & Hpb); try (rewrite <- Hsize; assumption).
  destruct (frombytes_size _ _ _ Ha) as (Hwa & Hha & Hwfa).
  destruct (frombytes_size _ _ _ Hb) as (Hwb & Hhb & Hwfb).
  assert (Hab : a = b).
  { apply image_ext; try assumption; try congruence.
    intros x y Hx Hy. rewrite Hwa in Hx. rewrite Hha in Hy.
    rewrite (Hpa x y Hx Hy), (Hpb x y) by (rewrite <- Hsize; assumption).
    rewrite <- Hsize.
    assert (Hin : y * fst (size f) + x < fst (size f) * snd (size f)) by nia.
    rewrite !Hsame; [reflexivity | | | | | | ]; try lia.
    - rewrite Nat.Div0.mul_mod, Nat.Div0.mod_same, Nat.Div0.mod_0_l. discriminate.
    - rewrite Nat.add_comm, Nat.mul_comm, Nat.Div0.mod_add. discriminate.
    - rewrite Nat.add_comm, Nat.mul_comm, Nat.Div0.mod_add. discriminate. }
  unfold transform, transform_to. rewrite Ha, Hb, Hab. reflexivity.
Qed.

(** ** The bytes of a word *)

Lemma astype_byte_of_Z (z : Z) : astype_uint16 (byte_of_Z z) = (z mod 256)%Z.
Proof.
  unfold astype_uint16, byte_of_Z.
  pose proof (Z.mod_pos_bound z 256 eq_refl) as Hz.
  destruct (Byte.of_N (Z.to_N (z mod 256))) as [b |] eqn:Hb.
  - apply Byte.to_of_N in Hb. rewrite Hb. apply Z2N.id. lia.
  - apply Byte.of_N_None_iff in Hb. lia.
Qed.

(** X3: a word below 2^16 is written as its low and its high byte, in the order
    of the host, and is read back from them. *)
Theorem uint16_bytes_roundtrip (word : Z) :
  (0 <= word < 65536)%Z ->
  exists lo hi,
    uint16_bytes little word = [lo; hi]
    /\ uint16_bytes big word = [hi; lo]
    /\ (astype_uint16 lo + 256 * astype_uint16 hi = word)%Z.
Proof.
  intros Hword. unfold uint16_bytes.
  exists (byte_of_Z (word mod 256)), (byte_of_Z (word / 256)).
  split; [reflexivity |]. split; [reflexivity |].
  rewrite !astype_byte_of_Z, Z.mod_mod by lia.
  rewrite (Z.mod_small (word / 256)).
  - pose proof (Z.div_mod word 256 ltac:(lia)). lia.
  - split; [apply Z.div_pos; lia | apply Z.div_lt_upper_bound; lia].
Qed.

Lemma uint16_bytes_roundtrip_witness :
  exists lo hi,
    uint16_bytes little 0x6288 = [lo; hi]
    /\ uint16_bytes big 0x6288 = [hi; lo]
    /\ (astype_uint16 lo + 256 * astype_uint16 hi = 0x6288)%Z.
Proof. apply (uint16_bytes_roundtrip 0x6288). lia. Defined.

(** ** Where a pixel is in the message *)

Lemma nth_flat_map_chunks {A B : Type} (f : A -> list B) (n : nat) (l : list A)
  (k j : nat) (da : A) (db : B) :
  (forall a, In a l -> length (f a) = n) ->
  k < length l -> j < n ->
  nth (n * k + j) (flat_map f l) db = nth j (f (nth k l da)) db.
Proof.
  revert k. induction l as [| a l IH]; intros k Hlen Hk Hj; cbn [length] in Hk; [lia |].
  cbn [flat_map]. destruct k as [| k].
  - rewrite Nat.mul_0_r. cbn [Nat.add nth].
    apply app_nth1. rewrite Hlen by now left. exact Hj.
  - rewrite app_nth2 by (rewrite Hlen by (now left); lia).
    rewrite Hlen by now left.
    replace (n * S k + j - n) with (n * k + j) by lia.
    cbn [nth]. apply IH; [intros b Hb; apply Hlen; now right | lia | exact Hj].
Qed.

(** X4: the message is the picture in row-major order, two bytes a pixel: the
    pixel of column [x] and row [y] of the resized image is found at offset
    [2 * (y * width + x)]. *)
Theorem transform_to_layout (tw th : nat) (f : ScreenShot) (out : list byte) :
  transform_to resample native (tw, th) f = Ok out ->
  exists img img_resized,
    frombytes (size f) (bgra f) = Ok img
    /\ resize resample (rotate_90_expand img) (tw, th) = Ok img_resized
    /\ forall x y, x < tw -> y < th ->
         [nth (2 * (y * tw + x)) out x00; nth (2 * (y * tw + x) + 1) out x00]
         = uint16_bytes native (pack (getpixel img_resized x y)).
Proof.
  unfold transform_to.
  destruct (frombytes (size f) (bgra f)) as [img |]; cbn [bind_result]; [| discriminate].
  destruct (resize resample (rotate_90_expand img) (tw, th)) as [res |] eqn:Hres;
    cbn [bind_result]; [| discriminate].
  destruct (resize_ok_size _ _ _ _ _ (transpose_ROTATE_90_wf img) Hres)
    as (Hw & Hh & Hrows & Hall).
  intros [= <-]. exists img, res. split; [reflexivity |]. split; [exact Hres |].
  intros x y Hx Hy. rewrite rgb565_of_channels. unfold tobytes, np_array.
  rewrite Forall_forall in Hall.
  assert (Hchunk : forall row, In row (map (map pack) (im_rows res)) ->
                               length (flat_map (uint16_bytes native) row) = 2 * tw).
  { intros row Hrow. apply in_map_iff in Hrow. destruct Hrow as (pixels & <- & Hin).
    rewrite (flat_map_length_const _ 2) by (intros; apply uint16_bytes_length).
    rewrite length_map, (Hall pixels Hin), Hw. lia. }
  assert (Hy' : y < length (map (map pack) (im_rows res)))
    by (rewrite length_map, Hrows, Hh; exact Hy).
  assert (Hrow : nth y (map (map pack) (im_rows res)) [] = map pack (nth y (im_rows res) [])).
  { rewrite <- (map_nth (map pack)). reflexivity. }
  assert (Hlen : length (nth y (im_rows res) []) = tw).
  { rewrite <- Hw. apply Hall, nth_In. rewrite Hrows, Hh. exact Hy. }
  assert (Hword : nth x (map pack (nth y (im_rows res) [])) 0%Z = pack (getpixel res x y)).
  { unfold getpixel. rewrite (nth_indep _ 0%Z (pack black)) by (rewrite length_map; lia).
    apply map_nth. }
  assert (Hbyte : forall j, j < 2 ->
            nth (2 * (y * tw + x) + j)
                (flat_map (flat_map (uint16_bytes native)) (map (map pack) (im_rows res))) x00
            = nth j (uint16_bytes native (pack (getpixel res x y))) x00).
  { intros j Hj.
    replace (2 * (y * tw + x) + j) with (2 * tw * y + (2 * x + j)) by lia.
    rewrite (nth_flat_map_chunks _ (2 * tw) _ y (2 * x + j) [] x00 Hchunk Hy') by lia.
    rewrite Hrow.
    rewrite (nth_flat_map_chunks _ 2 _ x j 0%Z x00)
      by (try (intros; apply uint16_bytes_length); try rewrite length_map; lia).
    now rewrite Hword. }
  rewrite <- (Nat.add_0_r (2 * (y * tw + x))) at 1.
  rewrite !Hbyte by lia.
  now destruct native.
Qed.

(** ** A frame that needs no resampling *)

(** X5: when the rotated capture already has the size asked for, [resize]
    copies it: the message is the packed rotated capture, whatever the
    filter. *)
Theorem same_size_capture_is_not_resampled (f : ScreenShot) (img : Image) :
  frombytes (size f) (bgra f) = Ok img ->
  transform_to resample native (snd (size f), fst (size f)) f
  = Ok (tobytes native (map (map pack) (im_rows (rotate_90_expand img)))).
Proof.
  intros Himg. destruct (frombytes_size _ _ _ Himg) as (Hw & Hh & _).
  unfold transform_to. rewrite Himg. cbn [bind_result].
  unfold resize. cbn [rotate_90_expand transpose_ROTATE_90 im_width im_height].
  rewrite Hw, Hh, !Nat.eqb_refl. cbn [andb bind_result].
  now rewrite rgb565_of_channels.
Qed.

End MorePipelineFacts.

Lemma transform_succeeds_iff_enough_bytes_witness :
  (exists out, transform nearest little sample_frame_padded = Ok out)
  <-> 4 * fst (size sample_frame_padded) * snd (size sample_frame_padded)
      <= length (bgra sample_frame_padded).
Proof.
  apply (transform_succeeds_iff_enough_bytes nearest little sample_frame_padded);
    cbn; discriminate.
Defined.

Lemma transform_reads_only_colour_bytes_witness :
  transform nearest little sample_frame = transform nearest little sample_frame_padded.
Proof.
  apply (transform_reads_only_colour_bytes nearest little sample_frame sample_frame_padded).
  - reflexivity.
  - cbn. discriminate.
  - cbn. discriminate.
  - cbn. lia.
  - cbn. lia.
  - cbn [sample_frame size fst snd]. intros i Hi Hmod.
    do 8 (destruct i as [| i]; [reflexivity || (exfalso; apply Hmod; reflexivity) |]).
    lia.
Defined.

Lemma transform_to_layout_witness :
  exists img img_resized,
    frombytes (size sample_frame) (bgra sample_frame) = Ok img
    /\ resize nearest (rotate_90_expand img) (1, 2) = Ok img_resized
    /\ forall x y, x < 1 -> y < 2 ->
         [nth (2 * (y * 1 + x)) [x88; x62; x02; x31] x00;
          nth (2 * (y * 1 + x) + 1) [x88; x62; x02; x31] x00]
         = uint16_bytes little (pack (getpixel img_resized x y)).
Proof.
  apply (transform_to_layout nearest little 1 2 sample_frame [x88; x62; x02; x31]).
  reflexivity.
Defined.


Lemma same_size_capture_is_not_resampled_witness :
  transform_to nearest little (snd (size sample_frame), fst (size sample_frame)) sample_frame
  = Ok (tobytes little
          (map (map pack)
             (im_rows (rotate_90_expand
                         (mkImage 2 1 [[mkPixel x30 x20 x10; mkPixel x60 x50 x40]]))))).
Proof.
  apply (same_size_capture_is_not_resampled nearest little sample_frame). reflexivity.
Defined.

(** ** Four quarter turns *)

Lemma rotate_twice_getpixel (im : Image) (x y : nat) :
  x < im_width im -> y < im_height im ->
  getpixel (rotate_90_expand (rotate_90_expand im)) x y
  = getpixel im (im_width im - 1 - x) (im_height im - 1 - y).
Proof.
  intros Hx Hy. unfold rotate_90_expand.
  rewrite transpose_ROTATE_90_getpixel by (cbn [transpose_ROTATE_90 im_width im_height]; lia).
  cbn [transpose_ROTATE_90 im_width im_height].
  rewrite transpose_ROTATE_90_getpixel by lia.
  reflexivity.
Qed.

(** X6: the rotation is a quarter turn: four of them give the image back. *)
Theorem four_rotations_are_the_identity (im : Image) :
  wf_image im ->
  rotate_90_expand (rotate_90_expand (rotate_90_expand (rotate_90_expand im))) = im.
Proof.
  intros Hwf. apply image_ext; try reflexivity; try exact Hwf.
  - apply transpose_ROTATE_90_wf.
  - intros x y Hx Hy.
    change (im_width (rotate_90_expand (rotate_90_expand
              (rotate_90_expand (rotate_90_expand im))))) with (im_width im) in Hx.
    change (im_height (rotate_90_expand (rotate_90_expand
              (rotate_90_expand (rotate_90_expand im))))) with (im_height im) in Hy.
    rewrite rotate_twice_getpixel by exact Hx || exact Hy.
    change (im_width (rotate_90_expand (rotate_90_expand im))) with (im_width im).
    change (im_height (rotate_90_expand (rotate_90_expand im))) with (im_height im).
    rewrite rotate_twice_getpixel by lia.
    f_equal; lia.
Qed.

Lemma marked_image_wf : wf_image marked_image.
Proof. split; [reflexivity | repeat constructor]. Defined.

Lemma four_rotations_are_the_identity_witness :
  rotate_90_expand (rotate_90_expand (rotate_90_expand (rotate_90_expand marked_image)))
  = marked_image.
Proof. apply (four_rotations_are_the_identity marked_image). exact marked_image_wf. Defined.

(** * Further properties of the session *)

Section MoreSessionFacts.

Local Open Scope itree_scope.

Variable resample : Image -> nat * nat -> nat -> nat -> Pixel.
Variable native : byteorder.

(** The iteration in which the loop is left: it sends at most one message,
    a whole frame, and it does not sleep. *)
Lemma failing_iteration (s : Script) (n : nat) (e : exn) :
  iteration_result resample native s n = Raise e ->
  exists sent,
    attempted_sends (iteration_calls resample native s n) = sent
    /\ length sent <= 1
    /\ Forall (fun message => Z.of_nat (length message) = 411640%Z) sent
    /\ length (delivered (iteration_calls resample native s n)) <= length sent
    /\ slept (iteration_calls resample native s n) == 0.
Proof.
  unfold iteration_result, iteration_calls.
  destruct (captured resample native s n) as [data |] eqn:Hcap; cbn [bind_result].
  - destruct (captured_ok_calls _ _ _ _ _ Hcap) as (ms & m & f & _ & _ & _ & Ht & ->).
    pose proof (transform_ok_length resample native f data Ht) as Hlen.
    destruct (on_send s n data) as [[] |]; cbn [bind_result].
    + intros ->. exists [data]. cbn. repeat split; auto.
    + intros _. exists [data]. cbn. repeat split; auto.
  - intros _. destruct (capture_failure_calls _ _ _ _ _ Hcap) as (_ & _ & Hs & Hd & Hz).
    exists []. rewrite app_nil_r, Hs, Hd, Hz. cbn. repeat split; auto.
Qed.

(** X7: whatever ends a session, every message it sent or tried to send is a
    whole frame of 411640 bytes; the iterations that ran to their end sent
    one each, and the last one at most one more. *)
Theorem every_message_is_a_whole_frame
  (websocket : WebSocket) (w : World) (n : nat) (e : exn) :
  at_iteration w 0 ->
  on_enter (script w) = Ok tt ->
  ends_at resample native (script w) n e ->
  exists w' sent,
    run (handler resample native websocket) w ≈ Ret (w', handler_result e)
    /\ attempted_sends (trace w') = attempted_sends (trace w) ++ sent
    /\ Forall (fun message => Z.of_nat (length message) = 411640%Z) sent
    /\ n <= length sent <= n + 1.
Proof.
  intros Hat Henter Hends.
  destruct (session_summary resample native websocket w n e Hat Henter Hends)
    as (w' & Hrun & Htrace & _ & _).
  destruct Hends as [Hok Hend].
  destruct (complete_iterations resample native (script w) n 0
              ltac:(intros j Hj; apply Hok; lia)) as (Hatt & _ & _).
  destruct (failing_iteration (script w) n e Hend) as (last & Hlast & Hlen & Hfull & _).
  destruct (epilogue_sends_nothing e) as [He _].
  exists w', (map (frame_of resample native (script w)) (seq 0 n) ++ last).
  split; [exact Hrun |]. split; [| split].
  - rewrite Htrace, !attempted_sends_app, Hatt, Hlast, He.
    cbn [attempted_sends]. now rewrite app_nil_r.
  - apply Forall_app. split; [now apply frames_complete | exact Hfull].
  - rewrite length_app, length_map, length_seq. lia.
Qed.

(** X8: the pace of a session: it has slept exactly one interval for each
    iteration that ran to its end, and delivered at most one frame more than
    it slept intervals. *)
Theorem session_sleeps_once_per_frame
  (websocket : WebSocket) (w : World) (n : nat) (e : exn) :
  at_iteration w 0 ->
  on_enter (script w) = Ok tt ->
  ends_at resample native (script w) n e ->
  exists w',
    run (handler resample native websocket) w ≈ Ret (w', handler_result e)
    /\ slept (trace w') == slept (trace w) + inject_Z (Z.of_nat n) * (1 # 20)
    /\ length (delivered (trace w')) <= length (delivered (trace w)) + n + 1
    /\ length (delivered (trace w)) + n <= length (delivered (trace w')).
Proof.
  intros Hat Henter Hends.
  destruct (session_summary resample native websocket w n e Hat Henter Hends)
    as (w' & Hrun & Htrace & _ & _).
  destruct Hends as [Hok Hend].
  destruct (complete_iterations resample native (script w) n 0
              ltac:(intros j Hj; apply Hok; lia)) as (_ & Hdel & Hslept).
  destruct (failing_iteration (script w) n e Hend) as (last & _ & Hlen & _ & Hdl & Hz).
  destruct (epilogue_sends_nothing e) as [_ He].
  exists w'. split; [exact Hrun |].
  rewrite Htrace, !delivered_app, !length_app, Hdel, He, length_map, length_seq.
  cbn [delivered length].
  split; [| lia].
  rewrite !slept_app, Hslept, Hz.
  assert (Hepi : slept (epilogue_calls e) == 0) by (destruct e; reflexivity).
  assert (Hq : frame_interval == 1 # 20) by reflexivity.
  rewrite Hepi, Hq. cbn [slept]. ring.
Qed.

(** X9: a capture source that cannot be opened: [mss()] is called outside the
    [try], so its exception leaves [handler] even when it is an
    [Exception]; nothing is grabbed or sent, no closing line is printed and
    no handle is held. *)
Theorem open_failure_leaves_handler (websocket : WebSocket) (w : World) (e : exn) :
  on_enter (script w) = Raise e ->
  exists w',
    run (handler resample native websocket) w ≈ Ret (w', Raise e)
    /\ trace w' = trace w ++ [Print (Connected (remote_address websocket)); Enter (Raise e)]
    /\ open_handles w' = open_handles w
    /\ attempted_sends (trace w') = attempted_sends (trace w).
Proof.
  intros Henter. eexists. split; [exact (handler_enter_fails _ _ websocket w e Henter) |].
  rewrite trace_after. split; [reflexivity |]. split; [reflexivity |].
  rewrite attempted_sends_app. cbn. now rewrite app_nil_r.
Qed.

(** X10: a send that fails is not tried again and is followed by no sleep: the
    next calls are those of the [except] clause that matches, the closing
    line and the release of the capture source. *)
Theorem failed_send_is_not_retried
  (websocket : WebSocket) (w : World) (n : nat) (frame_data : list byte) (e : exn) :
  at_iteration w 0 ->
  on_enter (script w) = Ok tt ->
  (forall i, i < n -> iteration_result resample native (script w) i = Ok tt) ->
  captured resample native (script w) n = Ok frame_data ->
  on_send (script w) n frame_data = Raise e ->
  exists w',
    run (handler resample native websocket) w ≈ Ret (w', handler_result e)
    /\ trace w'
       = trace w
         ++ [Print (Connected (remote_address websocket)); Enter (Ok tt)]
         ++ flat_map (iteration_calls resample native (script w)) (seq 0 n)
         ++ capture_calls (script w) n
         ++ [Send frame_data (Raise e)]
         ++ epilogue_calls e
    /\ delivered (trace w')
       = delivered (trace w) ++ map (frame_of resample native (script w)) (seq 0 n)
    /\ open_handles w' = open_handles w.
Proof.
  intros Hat Henter Hok Hcap Hsend.
  assert (Hend : iteration_result resample native (script w) n = Raise e).
  { unfold iteration_result. rewrite Hcap. cbn [bind_result]. now rewrite Hsend. }
  assert (Hcalls : iteration_calls resample native (script w) n
                   = capture_calls (script w) n ++ [Send frame_data (Raise e)]).
  { unfold iteration_calls. rewrite Hcap. now rewrite Hsend. }
  destruct (session_summary resample native websocket w n e Hat Henter (conj Hok Hend))
    as (w' & Hrun & Htrace & _ & Hopen).
  destruct (complete_iterations resample native (script w) n 0
              ltac:(intros j Hj; apply Hok; lia)) as (_ & Hdel & _).
  destruct (epilogue_sends_nothing e) as [_ He].
  rewrite Hcalls, <- app_assoc in Htrace.
  exists w'. split; [exact Hrun |]. split; [exact Htrace |]. split; [| exact Hopen].
  rewrite Htrace, !delivered_app, Hdel, He.
  destruct (captured_ok_calls _ _ _ _ _ Hcap) as (ms & m & f & _ & _ & _ & _ & ->).
  cbn [delivered app]. now rewrite !app_nil_r.
Qed.

(** ** A session that nothing ends *)

Lemma returns_is_leaf {R : Type} (t : itree void1 R) (r : R) : t ≈ Ret r -> Leaf r t.
Proof. intros Ht. rewrite Ht. apply Leaf_Ret. Qed.

Lemma stream_loop_never_ends (w : World) (i : nat) :
  at_iteration w i ->
  (forall j, iteration_result resample native (script w) j = Ok tt) ->
  forall x, ~ Leaf x (run (stream_loop resample native) w).
Proof.
  intros Hat Hok x Hleaf.
  pose (RS := fun s : World => script s = script w /\ exists j, at_iteration s j).
  assert (Hpost : prod_pred RS (fun _ : exn => False) x).
  { unfold run, stream_loop in Hleaf.
    refine (Leaf_interp_state_iter_inv world _ RS (fun _ : unit => True)
              (fun _ : exn => False) w tt _ _ I x Hleaf).
    - intros s [] [Hs [j Hj]] _ sx Hsx.
      pose proof (loop_body_runs resample native s j Hj) as Hbody.
      rewrite Hs, Hok in Hbody. unfold run in Hbody.
      rewrite Hbody in Hsx. apply Leaf_Ret_inv in Hsx. subst sx.
      split; [| exact I]. cbn [fst].
      destruct (after_in_loop (iteration_calls resample native (script w) j) s
                  (iteration_calls_in_loop resample native (script w) j))
        as (_ & Hscript & _).
      split; [congruence |]. exists (S j).
      rewrite <- Hs. apply iteration_ok_advances; [exact Hj |].
      rewrite Hs. apply Hok.
    - split; [reflexivity | now exists i]. }
  destruct x as [w' e]. exact (proj2 Hpost).
Qed.

(** X11: as long as no call fails the loop goes on: a session in which every
    iteration runs to its end never returns from [handler]. *)
Theorem endless_session_never_returns
  (websocket : WebSocket) (w : World) (w' : World) (r : result unit) :
  at_iteration w 0 ->
  on_enter (script w) = Ok tt ->
  (forall i, iteration_result resample native (script w) i = Ok tt) ->
  ~ run (handler resample native websocket) w ≈ Ret (w', r).
Proof.
  intros Hat Henter Hok Hret. unfold handler in Hret.
  rewrite (run_bind_ret _ _ _ _ _ (run_print _ _)) in Hret.
  set (w1 := apply_call (Print (Connected (remote_address websocket))) w) in Hret.
  rewrite (run_try_bind _ _ _ _ _ (run_mss_enter w1)) in Hret.
  change (on_enter (script w1)) with (on_enter (script w)) in Hret.
  rewrite Henter in Hret.
  set (w2 := apply_call (Enter (Ok tt)) w1) in Hret.
  apply returns_is_leaf in Hret. unfold run in Hret.
  rewrite interp_state_bind in Hret.
  apply Leaf_bind_inv in Hret. destruct Hret as (x & Hx & _).
  exact (stream_loop_never_ends w2 0 Hat Hok x Hx).
Qed.

End MoreSessionFacts.

Lemma endless_session_never_returns_witness :
  ~ run (handler nearest little peer) (fresh steady [])
    ≈ Ret (fresh steady [], Ok tt).
Proof.
  apply (endless_session_never_returns nearest little peer (fresh steady [])).
  - apply fresh_at_start.
  - reflexivity.
  - exact steady_iterations.
Defined.

Lemma capture_lost_ends :
  ends_at nearest little capture_lost 2
          (PyException "ScreenShotError" "XGetImage() failed").
Proof. split; [exact capture_lost_iterations | reflexivity]. Qed.

Lemma every_message_is_a_whole_frame_witness :
  exists w' sent,
    run (handler nearest little peer) (fresh capture_lost []) ≈ Ret (w', Ok tt)
    /\ attempted_sends (trace w') = sent
    /\ Forall (fun message => Z.of_nat (length message) = 411640%Z) sent
    /\ 2 <= length sent <= 3.
Proof.
  destruct (every_message_is_a_whole_frame nearest little peer (fresh capture_lost []) 2
              (PyException "ScreenShotError" "XGetImage() failed"))
    as (w' & sent & Hrun & Hsent & Hfull & Hlen).
  - apply fresh_at_start.
  - reflexivity.
  - exact capture_lost_ends.
  - exists w', sent. split; [exact Hrun |]. split; [exact Hsent |].
    split; [exact Hfull | exact Hlen].
Defined.

Lemma session_sleeps_once_per_frame_witness :
  exists w',
    run (handler nearest little peer) (fresh peer_gone []) ≈ Ret (w', Ok tt)
    /\ slept (trace w') == 1 # 20
    /\ length (delivered (trace w')) <= 2
    /\ 1 <= length (delivered (trace w')).
Proof.
  destruct (session_sleeps_once_per_frame nearest little peer (fresh peer_gone []) 1
              (ConnectionClosed 1006 ""))
    as (w' & Hrun & Hslept & Hmax & Hmin).
  - apply fresh_at_start.
  - reflexivity.
  - exact peer_gone_ends.
  - exists w'. split; [exact Hrun |]. split; [rewrite Hslept; reflexivity |].
    split; [exact Hmax | exact Hmin].
Defined.

Lemma open_failure_leaves_handler_witness :
  exists w',
    run (handler nearest little peer) (fresh no_display [])
    ≈ Ret (w', Raise (PyException "ScreenShotError" "Unable to open display"))
    /\ trace w'
       = [Print (Connected (remote_address peer));
          Enter (Raise (PyException "ScreenShotError" "Unable to open display"))]
    /\ open_handles w' = 0
    /\ attempted_sends (trace w') = [].
Proof.
  apply (open_failure_leaves_handler nearest little peer (fresh no_display [])).
  reflexivity.
Defined.

Lemma peer_gone_captured :
  captured nearest little peer_gone 1 = Ok (frame_of nearest little peer_gone 1).
Proof.
  destruct (captured_valid nearest little peer_gone 1 two_monitors (mkMonitor 0 0 2 1)
              sample_frame eq_refl eq_refl eq_refl sample_frame_valid) as [data Hdata].
  unfold frame_of. now rewrite Hdata.
Qed.

Lemma failed_send_is_not_retried_witness :
  exists w',
    run (handler nearest little peer) (fresh peer_gone []) ≈ Ret (w', Ok tt)
    /\ delivered (trace w') = [frame_of nearest little peer_gone 0]
    /\ open_handles w' = 0.
Proof.
  destruct (failed_send_is_not_retried nearest little peer (fresh peer_gone []) 1
              (frame_of nearest little peer_gone 1) (ConnectionClosed 1006 ""))
    as (w' & Hrun & _ & Hdel & Hopen).
  - apply fresh_at_start.
  - reflexivity.
  - exact (proj1 peer_gone_ends).
  - exact peer_gone_captured.
  - reflexivity.
  - exists w'. split; [exact Hrun |]. split; [exact Hdel | exact Hopen].
Defined.

(** * Properties of the start-up *)

(** ** The dependency check *)

Lemma check_packages_returns_iff (py : Interpreter) (items : list (string * string)) :
  snd (check_packages py items) = Returns <-> forallb (obtainable py) items = true.
Proof.
  induction items as [| [module_name package_name] rest IH]; cbn [check_packages forallb].
  - tauto.
  - unfold obtainable at 1. cbn [fst snd].
    destruct (import_module py module_name) as [[] | e].
    + destruct (check_packages py rest) as [calls how]. cbn [snd andb] in *. exact IH.
    + destruct (isinstance_ImportError e); cbn [andb].
      * destruct (check_call py (pip_install py package_name)) as [[] | e'];
          cbn [is_ok andb].
        -- destruct (check_packages py rest) as [calls how]. cbn [snd] in *. exact IH.
        -- destruct (isinstance_CalledProcessError e'); cbn [snd];
             split; intros; discriminate.
      * cbn [snd]. split; intros; discriminate.
Qed.

Lemma imported_app (l1 l2 : list boot_call) :
  imported (l1 ++ l2) = imported l1 ++ imported l2.
Proof.
  induction l1 as [| c l1 IH]; [reflexivity |].
  destruct c; cbn [app imported]; now rewrite IH.
Qed.

Lemma check_packages_imports_once (py : Interpreter) (items : list (string * string)) :
  (exists k, imported (fst (check_packages py items)) = firstn k (map fst items))
  /\ (snd (check_packages py items) = Returns ->
      imported (fst (check_packages py items)) = map fst items).
Proof.
  induction items as [| [module_name package_name] rest [[k Hk] Hall]];
    cbn [check_packages map fst].
  - split; [now exists 0 | reflexivity].
  - destruct (import_module py module_name) as [[] | e].
    + destruct (check_packages py rest) as [calls how]. cbn [fst snd imported] in *.
      split; [exists (S k); cbn; now rewrite Hk | intros H; now rewrite Hall].
    + destruct (isinstance_ImportError e).
      * destruct (check_call py (pip_install py package_name)) as [[] | e'].
        -- destruct (check_packages py rest) as [calls how]. cbn [fst snd imported] in *.
           split; [exists (S k); cbn; now rewrite Hk | intros H; now rewrite Hall].
        -- destruct (isinstance_CalledProcessError e'); cbn [fst snd imported];
             (split; [now exists 1 | discriminate]).
      * cbn [fst snd imported]. split; [now exists 1 | discriminate].
Qed.

(** X12: the check returns, so that the script goes on to its imports,
    exactly when every package is importable or can be installed.  Each
    module is imported once at most, in the order of the table: the modules
    imported are always a first part of the table, and the whole of it when
    the check returns, so that a module pip has just installed is not
    imported a second time to make sure. *)
Theorem install_dependencies_returns_iff (py : Interpreter) :
  (snd (install_dependencies py) = Returns <-> forallb (obtainable py) packages = true)
  /\ (exists k, imported (fst (install_dependencies py)) = firstn k (map fst packages))
  /\ (snd (install_dependencies py) = Returns ->
      imported (fst (install_dependencies py)) = map fst packages
      /\ NoDup (imported (fst (install_dependencies py)))).
Proof.
  unfold install_dependencies.
  rewrite <- check_packages_returns_iff.
  destruct (check_packages_imports_once py packages) as [[k Hk] Hall].
  destruct (check_packages py packages) as [calls how]. cbn [fst snd] in *.
  assert (Himp : imported (Say Checking
                           :: calls ++ match how with
                                       | Returns => [Say Separator]
                                       | _ => []
                                       end) = imported calls).
  { cbn [imported]. rewrite imported_app. destruct how; cbn; now rewrite app_nil_r. }
  rewrite Himp.
  split; [reflexivity |]. split; [now exists k |].
  intros Hret. rewrite (Hall Hret). split; [reflexivity |].
  repeat constructor; cbn; intuition discriminate.
Qed.

Lemma check_packages_pip (py : Interpreter) (items : list (string * string))
  (args : list string) :
  In (CheckCall args) (fst (check_packages py items)) ->
  exists module_name package_name e,
    In (module_name, package_name) items
    /\ args = pip_install py package_name
    /\ import_module py module_name = Raise e
    /\ isinstance_ImportError e = true.
Proof.
  induction items as [| [module_name package_name] rest IH]; cbn [check_packages].
  - intros [].
  - assert (Hrest : In (CheckCall args) (fst (check_packages py rest)) ->
                    exists m p e, In (m, p) ((module_name, package_name) :: rest)
                                  /\ args = pip_install py p
                                  /\ import_module py m = Raise e
                                  /\ isinstance_ImportError e = true).
    { intros Hin. destruct (IH Hin) as (m & p & e & Hmp & H).
      exists m, p, e. split; [now right | exact H]. }
    assert (Hhere : forall e, import_module py module_name = Raise e ->
                    isinstance_ImportError e = true ->
                    CheckCall (pip_install py package_name) = CheckCall args ->
                    exists m p e, In (m, p) ((module_name, package_name) :: rest)
                                  /\ args = pip_install py p
                                  /\ import_module py m = Raise e
                                  /\ isinstance_ImportError e = true).
    { intros e He Hi [= <-]. exists module_name, package_name, e.
      split; [now left | auto]. }
    destruct (import_module py module_name) as [[] | e] eqn:Himp.
    + destruct (check_packages py rest) as [calls how]. cbn [fst] in *.
      intros [H | [H | H]]; try discriminate. now apply Hrest.
    + destruct (isinstance_ImportError e) eqn:Hie.
      * destruct (check_call py (pip_install py package_name)) as [[] | e'].
        -- destruct (check_packages py rest) as [calls how]. cbn [fst] in *.
           intros [H | [H | [H | [H | H]]]]; try discriminate;
             [now apply (Hhere e) | now apply Hrest].
        -- destruct (isinstance_CalledProcessError e'); cbn [fst].
           ++ intros [H | [H | [H | [H | [H | []]]]]]; try discriminate.
              now apply (Hhere e).
           ++ intros [H | [H | [H | []]]]; try discriminate. now apply (Hhere e).
      * cbn [fst]. intros [H | []]. discriminate.
Qed.

(** X13: pip is run for nothing but a package of the table whose module failed
    to import with [ImportError], and always as
    [sys.executable -m pip install <package>]. *)
Theorem pip_runs_only_for_missing_modules (py : Interpreter) (args : list string) :
  In (CheckCall args) (fst (install_dependencies py)) ->
  exists module_name package_name e,
    In (module_name, package_name) packages
    /\ args = pip_install py package_name
    /\ import_module py module_name = Raise e
    /\ isinstance_ImportError e = true.
Proof.
  unfold install_dependencies. intros Hin.
  apply (check_packages_pip py packages args).
  destruct (check_packages py packages) as [calls how]. cbn [fst] in *.
  destruct Hin as [H | Hin]; [discriminate |].
  apply in_app_or in Hin. destruct Hin as [Hin | Hin]; [exact Hin |].
  destruct how; [destruct Hin as [H | []]; discriminate | destruct Hin | destruct Hin].
Qed.

Lemma without_pillow_runs_pip :
  In (CheckCall ["/usr/bin/python3"; "-m"; "pip"; "install"; "Pillow"]%string)
     (fst (install_dependencies without_pillow)).
Proof. cbn. auto 10. Defined.

Lemma pip_runs_only_for_missing_modules_witness :
  exists module_name package_name e,
    In (module_name, package_name) packages
    /\ ["/usr/bin/python3"; "-m"; "pip"; "install"; "Pillow"]%string
       = pip_install without_pillow package_name
    /\ import_module without_pillow module_name = Raise e
    /\ isinstance_ImportError e = true.
Proof.
  apply (pip_runs_only_for_missing_modules without_pillow).
  exact without_pillow_runs_pip.
Defined.

Lemma check_packages_stops (py : Interpreter) (before after : list (string * string))
  (module_name package_name : string) (e e' : exn) :
  forallb (obtainable py) before = true ->
  import_module py module_name = Raise e ->
  isinstance_ImportError e = true ->
  check_call py (pip_install py package_name) = Raise e' ->
  isinstance_CalledProcessError e' = true ->
  snd (check_packages py (before ++ (module_name, package_name) :: after)) = SysExit 1
  /\ imported (fst (check_packages py (before ++ (module_name, package_name) :: after)))
     = map fst before ++ [module_name]
  /\ exists calls,
       fst (check_packages py (before ++ (module_name, package_name) :: after))
       = calls ++ [CheckCall (pip_install py package_name);
                   Say (InstallFailed package_name); Say (ErrorDetail e')].
Proof.
  intros Hbefore Himp Hie Hpip Hcpe.
  induction before as [| [m p] before IH]; cbn [app check_packages].
  - rewrite Himp, Hie, Hpip, Hcpe. cbn.
    split; [reflexivity |]. split; [reflexivity |].
    now exists [ImportModule module_name; Say (NotFound package_name)].
  - cbn [forallb] in Hbefore. apply andb_true_iff in Hbefore.
    destruct Hbefore as [Hmp Hbefore]. specialize (IH Hbefore).
    destruct IH as (Hend & Himported & calls & Hcalls).
    unfold obtainable in Hmp. cbn [fst snd] in Hmp.
    destruct (import_module py m) as [[] | em].
    + destruct (check_packages py (before ++ (module_name, package_name) :: after))
        as [rest how]. cbn [fst snd] in *.
      split; [exact Hend |]. split; [cbn; now rewrite Himported |].
      exists (ImportModule m :: Say (AlreadyInstalled p) :: calls). now rewrite Hcalls.
    + apply andb_true_iff in Hmp. destruct Hmp as [Hm Hp]. rewrite Hm.
      destruct (check_call py (pip_install py p)) as [[] |]; [| discriminate].
      destruct (check_packages py (before ++ (module_name, package_name) :: after))
        as [rest how]. cbn [fst snd] in *.
      split; [exact Hend |]. split; [cbn; now rewrite Himported |].
      exists (ImportModule m :: Say (NotFound p) :: CheckCall (pip_install py p)
              :: Say (Installed p) :: calls). now rewrite Hcalls.
Qed.

(** X14: the first package that is missing and that pip fails to install ends
    the process with status 1: the packages after it in the table are not
    looked at, and the separator line is not printed. *)
Theorem failed_install_exits_with_status_1
  (py : Interpreter) (before after : list (string * string))
  (module_name package_name : string) (e e' : exn) :
  packages = before ++ (module_name, package_name) :: after ->
  forallb (obtainable py) before = true ->
  import_module py module_name = Raise e ->
  isinstance_ImportError e = true ->
  check_call py (pip_install py package_name) = Raise e' ->
  isinstance_CalledProcessError e' = true ->
  snd (install_dependencies py) = SysExit 1
  /\ imported (fst (install_dependencies py)) = map fst before ++ [module_name]
  /\ exists calls,
       fst (install_dependencies py)
       = calls ++ [CheckCall (pip_install py package_name);
                   Say (InstallFailed package_name); Say (ErrorDetail e')].
Proof.
  intros Hpk Hbefore Himp Hie Hpip Hcpe. unfold install_dependencies. rewrite Hpk.
  destruct (check_packages_stops py before after module_name package_name e e'
              Hbefore Himp Hie Hpip Hcpe) as (Hend & Himported & calls & Hcalls).
  destruct (check_packages py (before ++ (module_name, package_name) :: after))
    as [rest how]. cbn [fst snd] in *. subst how.
  split; [reflexivity |]. rewrite app_nil_r.
  split; [exact Himported |].
  exists (Say Checking :: calls). now rewrite Hcalls.
Qed.

Lemma failed_install_exits_with_status_1_witness :
  snd (install_dependencies offline_without_mss) = SysExit 1
  /\ imported (fst (install_dependencies offline_without_mss))
     = ["websockets"; "mss"]%string.
Proof.
  destruct (failed_install_exits_with_status_1 offline_without_mss
              [("websockets", "websockets")]%string
              [("PIL", "Pillow"); ("numpy", "numpy")]%string "mss" "mss"
              (PyException "ModuleNotFoundError" "No module named 'mss'")
              (PyException "CalledProcessError" "returned non-zero exit status 1"))
    as (Hend & Himported & _); try reflexivity.
  split; [exact Hend | exact Himported].
Defined.

(** ** The address to print *)

Lemma route_lookup_fails (net : Network) (hostname : string) (e : exn) :
  probe_fails net hostname e -> snd (route_lookup net hostname) = Raise e.
Proof.
  unfold probe_fails, route_lookup.
  intros [H | [Hby [H | [Hopen [H | [Hconn [H | [Hsock H]]]]]]]].
  - now rewrite H.
  - destruct (gethostbyname net hostname); [| discriminate]. now rewrite H.
  - destruct (gethostbyname net hostname); [| discriminate]. now rewrite Hopen, H.
  - destruct (gethostbyname net hostname); [| discriminate].
    now rewrite Hopen, Hconn, H.
  - destruct (gethostbyname net hostname); [| discriminate].
    rewrite Hopen, Hconn.
    destruct (socket_getsockname net) as [[address port] |]; [| discriminate].
    now rewrite H.
Qed.

Lemma route_lookup_raises (net : Network) (hostname : string) (e : exn) :
  snd (route_lookup net hostname) = Raise e -> probe_fails net hostname e.
Proof.
  unfold probe_fails, route_lookup.
  destruct (gethostbyname net hostname) as [resolved | e1]; cbn [snd is_ok].
  - destruct (socket_open net) as [[] | e2]; cbn [snd].
    + destruct (socket_connect net "8.8.8.8" 80) as [[] | e3]; cbn [snd].
      * destruct (socket_getsockname net) as [[address port] | e4]; cbn [snd is_ok].
        -- destruct (socket_close net) as [[] | e5]; cbn [snd]; [discriminate |].
           intros [= ->]. right. split; [reflexivity |]. right. split; [reflexivity |].
           right. split; [reflexivity |]. right. auto.
        -- intros [= ->]. right. split; [reflexivity |]. right. split; [reflexivity |].
           right. split; [reflexivity |]. now left.
      * intros [= ->]. right. split; [reflexivity |]. right. split; [reflexivity |].
        now left.
    + intros [= ->]. right. split; [reflexivity |]. now left.
  - intros [= ->]. now left.
Qed.

(** X15: the address [main] prints.  When every call of the [try]
    succeeds it is the local end of the probe socket; as soon as one of
    them raises an [Exception] it is the loopback address, and an exception
    that is no [Exception] leaves [main].  What [gethostbyname] answered is
    never the result: an address is computed in these two ways only. *)
Theorem ip_address_is_probe_or_loopback (net : Network) (hostname : string) :
  gethostname net = Ok hostname ->
  (forall resolved address port,
     gethostbyname net hostname = Ok resolved ->
     socket_open net = Ok tt ->
     socket_connect net "8.8.8.8" 80 = Ok tt ->
     socket_getsockname net = Ok (address, port) ->
     socket_close net = Ok tt ->
     main_ip_address net
     = ([GetHostName; GetHostByName hostname; SocketOpen; SocketConnect "8.8.8.8" 80;
         SocketGetSockName; SocketClose], Ok address))
  /\ (forall e,
        probe_fails net hostname e ->
        snd (main_ip_address net)
        = if isinstance_Exception e then Ok "127.0.0.1"%string else Raise e)
  /\ (forall ip_address,
        snd (main_ip_address net) = Ok ip_address ->
        (exists resolved port,
           gethostbyname net hostname = Ok resolved
           /\ socket_open net = Ok tt
           /\ socket_connect net "8.8.8.8" 80 = Ok tt
           /\ socket_getsockname net = Ok (ip_address, port)
           /\ socket_close net = Ok tt)
        \/ (ip_address = "127.0.0.1"%string
            /\ exists e, probe_fails net hostname e /\ isinstance_Exception e = true)).
Proof.
  intros Hname. unfold main_ip_address. rewrite Hname.
  split; [| split].
  - intros resolved address port Hby Hopen Hconn Hsock Hclose.
    unfold route_lookup. now rewrite Hby, Hopen, Hconn, Hsock, Hclose.
  - intros e Hfail. apply route_lookup_fails in Hfail.
    destruct (route_lookup net hostname) as [calls r]. cbn [snd] in *. now subst r.
  - intros ip_address.
    destruct (route_lookup net hostname) as [calls r] eqn:Hroute. cbn [snd].
    destruct r as [address | e].
    + intros [= ->]. left. unfold route_lookup in Hroute.
      destruct (gethostbyname net hostname) as [resolved | e] eqn:Hby; [| discriminate].
      destruct (socket_open net) as [[] | e] eqn:Hopen; [| discriminate].
      destruct (socket_connect net "8.8.8.8" 80) as [[] | e] eqn:Hconn; [| discriminate].
      destruct (socket_getsockname net) as [[address port] | e] eqn:Hsock;
        [| discriminate].
      destruct (socket_close net) as [[] | e] eqn:Hclose; [| discriminate].
      injection Hroute as _ <-. exists resolved, port. repeat split; assumption.
    + destruct (isinstance_Exception e) eqn:He; [| discriminate].
      intros [= <-]. right. split; [reflexivity |]. exists e. split; [| exact He].
      apply route_lookup_raises. now rewrite Hroute.
Qed.

Lemma ip_address_is_probe_or_loopback_witness :
  snd (main_ip_address no_route)
  = (if isinstance_Exception (PyException "OSError" "Network is unreachable")
     then Ok "127.0.0.1"%string
     else Raise (PyException "OSError" "Network is unreachable")).
Proof.
  apply (proj1 (proj2 (ip_address_is_probe_or_loopback no_route "desk" eq_refl))).
  right. split; [reflexivity |]. right. split; [reflexivity |]. now left.
Defined.

(** X16: the probe socket is closed only when the probe went through: when
    [connect] or [getsockname] raises, [close] is never called on the
    socket that was opened. *)
Theorem failed_probe_leaves_socket_open (net : Network) (hostname resolved : string) :
  gethostname net = Ok hostname ->
  gethostbyname net hostname = Ok resolved ->
  socket_open net = Ok tt ->
  is_ok (socket_connect net "8.8.8.8" 80) && is_ok (socket_getsockname net) = false ->
  In SocketOpen (fst (main_ip_address net))
  /\ ~ In SocketClose (fst (main_ip_address net)).
Proof.
  intros Hname Hby Hopen Hfail. unfold main_ip_address, route_lookup.
  rewrite Hname, Hby, Hopen.
  destruct (socket_connect net "8.8.8.8" 80) as [[] | e].
  - destruct (socket_getsockname net) as [[address port] | e]; [discriminate |].
    cbn. split; [auto |]. intros H. decompose [or] H; discriminate || contradiction.
  - cbn. split; [auto |]. intros H. decompose [or] H; discriminate || contradiction.
Qed.

Lemma failed_probe_leaves_socket_open_witness :
  In SocketOpen (fst (main_ip_address no_route))
  /\ ~ In SocketClose (fst (main_ip_address no_route)).
Proof.
  apply (failed_probe_leaves_socket_open no_route "desk" "192.168.4.2"); reflexivity.
Defined.
